(** * Frescobaldi widgets: the character map and the SVG view

    A shallow embedding of
    - [frescobaldi_app/widgets/charmap.py] (class [CharMap]) and
    - [frescobaldi_app/svgview/view.py] (class [View]: [document],
      [doTextEdit] and the zoom methods; [JSLink.click] and [hover])
    together with the properties of the two widgets that the specification
    states about them.

    The widgets are Python 2 / PyQt4 objects.  A method is modelled as a
    computation over the attributes of [self] that may raise a Python
    exception and that records, in order, the Qt signals it emits and the
    Qt calls it makes.  An attribute assigned before an exception is
    raised stays assigned, as in Python. *)

From Stdlib Require Import ZArith List String Bool Lia SpecFloat.
Import ListNotations.

Open Scope Z_scope.

(** ** Python built-ins used by the widgets *)

Module Py.

Inductive exn : Type :=
| ValueError
| TypeError
| ZeroDivisionError
| OverflowError.

Inductive result (A : Type) : Type :=
| Ok (a : A)
| Raise (e : exn).
Arguments Ok {A} a.
Arguments Raise {A} e.

(** A [unicode] object is the sequence of its code points. *)
Definition unicode : Type := list Z.

(** The argument of [CharMap.select]: an [int] or a string. *)
Inductive object : Type :=
| PyInt (z : Z)
| PyUnicode (s : unicode).

(** [sys.maxunicode] of a wide build. *)
Definition maxunicode : Z := 1114111.

(** The bounds of a C [int], as which [unichr] takes its argument. *)
Definition INT_MIN : Z := -2147483648.
Definition INT_MAX : Z := 2147483647.

(** [unichr(i)]: [ValueError] unless [0 <= i <= sys.maxunicode], and
    [OverflowError] for an argument that is not a C [int]. *)
Definition unichr (i : Z) : result unicode :=
  if (0 <=? i) && (i <=? maxunicode) then Ok [i]
  else if (INT_MIN <=? i) && (i <=? INT_MAX) then Raise ValueError
  else Raise OverflowError.

(** [ord(s)]: [TypeError] unless [s] has length one. *)
Definition ord (s : unicode) : result Z :=
  match s with
  | [c] => Ok c
  | _ => Raise TypeError
  end.

(** [a // b] on integers: floor division, [ZeroDivisionError] on [b = 0]. *)
Definition floordiv (a b : Z) : result Z :=
  if b =? 0 then Raise ZeroDivisionError else Ok (a / b).

End Py.

(** ** Methods as computations

    [M S E A]: a method body over the attributes [S] of [self], logging
    effects of type [E], returning an [A] or raising. *)

Module Method.
Import Py.

Record outcome (S E A : Type) : Type := Outcome {
  out_result : result A;
  out_state : S;
  out_events : list E
}.
Arguments Outcome {S E A}.
Arguments out_result {S E A}.
Arguments out_state {S E A}.
Arguments out_events {S E A}.

Definition M (S E A : Type) : Type := S -> outcome S E A.

Section Ops.
Context {S E : Type}.

Definition ret {A} (a : A) : M S E A :=
  fun s => Outcome (Ok a) s [].

Definition bind {A B} (m : M S E A) (k : A -> M S E B) : M S E B :=
  fun s =>
    let o := m s in
    match out_result o with
    | Ok a =>
        let o' := k a (out_state o) in
        Outcome (out_result o') (out_state o') (out_events o ++ out_events o')
    | Raise e => Outcome (Raise e) (out_state o) (out_events o)
    end.

(** the attributes of [self] *)
Definition get : M S E S :=
  fun s => Outcome (Ok s) s [].

(** an assignment to attributes of [self] *)
Definition modify (f : S -> S) : M S E unit :=
  fun s => Outcome (Ok tt) (f s) [].

(** a signal emission, or a call into Qt that is only recorded *)
Definition emit (e : E) : M S E unit :=
  fun s => Outcome (Ok tt) s [e].

(** the value of a built-in call, or its exception *)
Definition lift {A} (r : result A) : M S E A :=
  fun s => Outcome r s [].

(** [if c: body] *)
Definition when (c : bool) (body : M S E unit) : M S E unit :=
  if c then body else ret tt.

End Ops.

Module Notations.
Declare Scope method_scope.
Delimit Scope method_scope with method.
Notation "x <- m ;; k" := (bind m (fun x => k))
  (at level 61, m at next level, right associativity) : method_scope.
Notation "m ;; k" := (bind m (fun _ => k))
  (at level 61, right associativity) : method_scope.
End Notations.

End Method.

(** ** [widgets/charmap.py] *)

Module CharMapWidget.
Import Py Method Method.Notations.
Open Scope method_scope.

(** What the widget uses of [QFont] and [QFontMetrics]. *)
Class QFontOps (QFont : Type) : Type := {
  (** [QFont()] *)
  QFont_new : QFont;
  (** [font.family()] *)
  family : QFont -> string;
  (** [font.setFamily(name)] *)
  setFamily : QFont -> string -> QFont;
  (** [font.setPointSize(size)] *)
  setPointSize : QFont -> Z -> QFont;
  (** [QFontMetrics(font).xHeight()] *)
  xHeight : QFont -> Z
}.

Inductive MouseButton : Type :=
| NoButton
| LeftButton
| RightButton
| MidButton.

Definition MouseButton_eqb (a b : MouseButton) : bool :=
  match a, b with
  | NoButton, NoButton
  | LeftButton, LeftButton
  | RightButton, RightButton
  | MidButton, MidButton => true
  | _, _ => false
  end.

Record QPoint : Type := { x : Z; y : Z }.

Record QMouseEvent : Type := { pos : QPoint; button : MouseButton }.

(** Signals emitted and [QWidget] calls made by the methods. *)
Inductive event : Type :=
| characterSelected (c : unicode)
| characterClicked (c : unicode)
| adjustSize
| update.

Section Widget.
Context {QFont : Type} `{QFontOps QFont}.

(** The attributes of a [CharMap]. *)
Record CharMap : Type := {
  _showToolTips : bool;
  _selected : Z;
  _column_count : Z;
  _square : Z;
  _range : Z * Z;
  _font : QFont
}.

Definition method (A : Type) : Type := M CharMap event A.

(** [__init__] *)
Definition init : CharMap := {|
  _showToolTips := true;
  _selected := -1;
  _column_count := 32;
  _square := 24;
  _range := (0, 0);
  _font := QFont_new
|}.

Definition set_range (r : Z * Z) (self : CharMap) : CharMap :=
  {| _showToolTips := _showToolTips self; _selected := _selected self;
     _column_count := _column_count self; _square := _square self;
     _range := r; _font := _font self |}.

Definition set_selected (c : Z) (self : CharMap) : CharMap :=
  {| _showToolTips := _showToolTips self; _selected := c;
     _column_count := _column_count self; _square := _square self;
     _range := _range self; _font := _font self |}.

Definition set_column_count (n : Z) (self : CharMap) : CharMap :=
  {| _showToolTips := _showToolTips self; _selected := _selected self;
     _column_count := n; _square := _square self;
     _range := _range self; _font := _font self |}.

Definition set_square (s : Z) (self : CharMap) : CharMap :=
  {| _showToolTips := _showToolTips self; _selected := _selected self;
     _column_count := _column_count self; _square := s;
     _range := _range self; _font := _font self |}.

Definition set_font (f : QFont) (self : CharMap) : CharMap :=
  {| _showToolTips := _showToolTips self; _selected := _selected self;
     _column_count := _column_count self; _square := _square self;
     _range := _range self; _font := f |}.

(** [self._range[0] <= c <= self._range[1]] *)
Definition in_range (self : CharMap) (c : Z) : bool :=
  (fst (_range self) <=? c) && (c <=? snd (_range self)).

(** [setRange] *)
Definition setRange (first last : Z) : method unit :=
  modify (set_range (first, last));;
  modify (set_selected (-1));;
  emit adjustSize;;
  emit update.

(** [select]; the [match] is the [isinstance(charcode, int)] test. *)
Definition select (charcode : object) : method unit :=
  charcode <- match charcode with
              | PyInt z => ret z
              | PyUnicode s => lift (ord s)
              end;;
  self <- get;;
  let charcode := if negb (in_range self charcode) then -1 else charcode in
  when (negb (_selected self =? charcode))
    (modify (set_selected charcode);;
     c <- lift (unichr charcode);;
     emit (characterSelected c);;
     emit update).

(** [character]: [None] when nothing is selected *)
Definition character : method (option unicode) :=
  self <- get;;
  if negb (_selected self =? -1)
  then c <- lift (unichr (_selected self));; ret (Some c)
  else ret None.

(** [setDisplayFont] *)
Definition setDisplayFont (font : QFont) : method unit :=
  modify (fun self => set_font (setFamily (_font self) (family font)) self);;
  emit update.

(** [setDisplayFontSize] *)
Definition setDisplayFontSize (size : Z) : method unit :=
  modify (fun self => set_font (setPointSize (_font self) size) self);;
  modify (fun self => set_square (Z.max 24 (xHeight (_font self) * 3)) self);;
  emit adjustSize;;
  emit update.

(** [setColumnCount] *)
Definition setColumnCount (count : Z) : method unit :=
  let count := Z.max 1 count in
  modify (set_column_count count);;
  emit adjustSize;;
  emit update.

(** [charcodeAt] *)
Definition charcodeAt (position : QPoint) : method Z :=
  self <- get;;
  row <- lift (floordiv (y position) (_square self));;
  col <- lift (floordiv (x position) (_square self));;
  if col <=? _column_count self then
    let charcode := fst (_range self) + row * _column_count self + col in
    if charcode <=? snd (_range self) then ret charcode else ret (-1)
  else ret (-1).

(** [mousePressEvent] *)
Definition mousePressEvent (ev : QMouseEvent) : method unit :=
  charcode <- charcodeAt (pos ev);;
  when (negb (charcode =? -1))
    (select (PyInt charcode);;
     when (negb (MouseButton_eqb (button ev) RightButton))
       (c <- lift (unichr charcode);;
        emit (characterClicked c))).

(** The code [select] goes on with after its range test. *)
Definition normalized (self : CharMap) (c : Z) : Z :=
  if in_range self c then c else -1.

(** The public operations that change a [CharMap]. *)
Inductive operation : Type :=
| SetRange (first last : Z)
| Select (charcode : object)
| SetColumnCount (count : Z)
| SetDisplayFont (font : QFont)
| SetDisplayFontSize (size : Z)
| MousePress (ev : QMouseEvent).

Definition run (op : operation) : method unit :=
  match op with
  | SetRange first last => setRange first last
  | Select charcode => select charcode
  | SetColumnCount count => setColumnCount count
  | SetDisplayFont font => setDisplayFont font
  | SetDisplayFontSize size => setDisplayFontSize size
  | MousePress ev => mousePressEvent ev
  end.

(** The widget after a sequence of calls; a caller that catches an
    exception goes on with the attributes as the call left them. *)
Definition run_all (ops : list operation) (self : CharMap) : CharMap :=
  fold_left (fun s op => out_state (run op s)) ops self.

(** The selection is the sentinel or lies in the range. *)
Definition selection_valid (self : CharMap) : Prop :=
  _selected self <> -1 ->
  fst (_range self) <= _selected self <= snd (_range self).

(** How often [characterSelected] occurs in a log. *)
Definition selected_emissions (log : list event) : nat :=
  List.length
    (filter (fun e => match e with characterSelected _ => true | _ => false end)
            log).

End Widget.
End CharMapWidget.

(** ** [svgview/view.py] *)

Module SvgView.
Import Py Method Method.Notations.
Open Scope method_scope.

(** The tuple returned by [textedit.link] for a textedit url. *)
Record Link : Type := { filename : string; line : Z; column : Z }.

(** The collaborators of [View]: the application ([app], the main
    window), the modules [textedit], [scratchdir], [util] and
    [pointandclick], and the Qt text classes.  [Host] is the state of
    the application, [Document] the identity of a document object. *)
Class HostApp (Host Document QTextCursor QTextCharFormat : Type) : Type := {
  (** [doc == other] on document objects *)
  Document_eq_dec : forall a b : Document, {a = b} + {a <> b};
  (** [textedit.link(url)], [None] when [url] is not a textedit link *)
  textedit_link : string -> option Link;
  (** [app.documents] *)
  app_documents : Host -> list Document;
  (** [scratchdir.scratchdir(d).directory()] *)
  scratchdir_directory : Host -> Document -> option string;
  (** [scratchdir.scratchdir(d).path()] *)
  scratchdir_path : Host -> Document -> string;
  (** [util.equal_paths(p1, p2)] *)
  equal_paths : string -> string -> bool;
  (** [d.url().toLocalFile()] *)
  toLocalFile : Host -> Document -> string;
  (** [app.openUrl(QUrl.fromLocalFile(filename))] *)
  app_openUrl : Host -> string -> Host * option Document;
  (** [QTextCursor(doc)] *)
  QTextCursor_new : Document -> QTextCursor;
  (** [doc.findBlockByNumber(n).position()] *)
  block_position : Host -> Document -> Z -> Z;
  (** [cursor.setPosition(p)] *)
  setPosition : Host -> QTextCursor -> Z -> QTextCursor;
  (** [pointandclick.positions(cursor)] *)
  pointandclick_positions : Host -> QTextCursor -> list QTextCursor;
  (** [mainwindow.currentDocument()] *)
  currentDocument : Host -> option Document;
  (** the application after [mainwindow.setTextCursor(cursor)] *)
  mainwindow_setTextCursor : Host -> QTextCursor -> Host;
  (** the application after [mainwindow.setCurrentDocument(doc)] *)
  mainwindow_setCurrentDocument : Host -> Document -> Host
}.

(** Calls made on the editor by [View], in order. *)
Inductive call {Document QTextCursor QTextCharFormat : Type} : Type :=
| openUrl (filename : string)
| highlight (format : QTextCharFormat) (cursors : list QTextCursor)
            (priority msec : Z)
| setTextCursor (cursor : QTextCursor)
| blink_cursor
| setCurrentDocument (doc : Document)
| activateWindow
| setFocus.
Arguments call : clear implicits.

Section View.
Context {Host Document QTextCursor QTextCharFormat : Type}
        `{HostApp Host Document QTextCursor QTextCharFormat}.

(** The view's attribute and the application it lives in. *)
Record View : Type := {
  _highlightFormat : QTextCharFormat;
  app : Host
}.

Definition method (A : Type) : Type :=
  M View (call Document QTextCursor QTextCharFormat) A.

Definition set_app (h : Host) (self : View) : View :=
  {| _highlightFormat := _highlightFormat self; app := h |}.

(** truth value of a string or [None] *)
Definition truthy (s : option string) : bool :=
  match s with
  | Some EmptyString | None => false
  | Some _ => true
  end.

(** the test of the loop in [document] *)
Definition matches (h : Host) (filename : string) (d : Document) : bool :=
  (truthy (scratchdir_directory h d)
   && equal_paths filename (scratchdir_path h d))
  || String.eqb (toLocalFile h d) filename.

(** [document] *)
Definition document (filename : string) (load : bool)
  : method (option Document) :=
  self <- get;;
  match find (matches (app self) filename) (app_documents (app self)) with
  | Some d => ret (Some d)
  | None =>
      if load then
        emit (openUrl filename);;
        let (h, doc) := app_openUrl (app self) filename in
        modify (set_app h);;
        ret doc
      else ret None
  end.

(** [doc == self.mainwindow().currentDocument()] *)
Definition is_current (h : Host) (doc : Document) : bool :=
  match currentDocument h with
  | Some d => if Document_eq_dec doc d then true else false
  | None => false
  end.

(** truth value of a list *)
Definition nonempty {A} (l : list A) : bool :=
  match l with
  | [] => false
  | _ :: _ => true
  end.

(** [doTextEdit] *)
Definition doTextEdit (url : string) (setCursor : bool) : method bool :=
  match textedit_link url with
  | None => ret false
  | Some t =>
      doc <- document (filename t) setCursor;;
      match doc with
      | Some doc =>
          self <- get;;
          let cursor := QTextCursor_new doc in
          let p := block_position (app self) doc (line t - 1) + column t in
          let cursor := setPosition (app self) cursor p in
          let cursors := pointandclick_positions (app self) cursor in
          when (nonempty cursors && is_current (app self) doc)
            (emit (highlight (_highlightFormat self) cursors 2 0));;
          when setCursor
            (emit (setTextCursor cursor);;
             modify (fun self =>
               set_app (mainwindow_setTextCursor (app self) cursor) self);;
             emit blink_cursor;;
             emit (setCurrentDocument doc);;
             modify (fun self =>
               set_app (mainwindow_setCurrentDocument (app self) doc) self);;
             emit activateWindow;;
             emit setFocus);;
          ret true
      | None => ret true
      end
  end.

(** [JSLink.hover] *)
Definition hover (url : string) : method bool :=
  doTextEdit url false.

End View.
End SvgView.

(** ** Concrete collaborators

    A font whose x-height depends on its family, and a small application
    with two open documents; the scenarios below run the widgets on
    them. *)

Module Sample.
Import Py Method CharMapWidget SvgView.
Open Scope string_scope.

Record Font : Type := { font_family : string; font_size : Z }.

(** x-height: the whole point size for the family "Tall", half of it
    otherwise. *)
#[export] Instance Font_ops : QFontOps Font := {|
  QFont_new := {| font_family := "Sans"; font_size := 12 |};
  family := font_family;
  setFamily f name := {| font_family := name; font_size := font_size f |};
  setPointSize f size :=
    if (size <=? 0)%Z then f
    else {| font_family := font_family f; font_size := size |};
  xHeight f :=
    if String.eqb (font_family f) "Tall" then font_size f
    else (font_size f / 2)%Z
|}.

(** An application: the open documents by number, with their file
    names, and the number of the current one. *)
Record App : Type := {
  open_files : list (nat * string);
  current : option nat
}.

Definition file_of (h : App) (d : nat) : string :=
  match find (fun e => Nat.eqb (fst e) d) (open_files h) with
  | Some e => snd e
  | None => ""
  end.

(** Recognizes just the link of the scenario. *)
Definition sample_link (url : string) : option Link :=
  if String.eqb url "textedit://file.ly:10:4"
  then Some {| filename := "file.ly"; line := 10; column := 4 |}
  else None.

#[export] Instance App_ops : HostApp App nat (nat * Z) unit := {|
  Document_eq_dec := Nat.eq_dec;
  textedit_link := sample_link;
  app_documents h := map fst (open_files h);
  scratchdir_directory _ _ := None;
  scratchdir_path _ _ := "";
  equal_paths := String.eqb;
  toLocalFile := file_of;
  app_openUrl h name :=
    let d := List.length (open_files h) in
    ({| open_files := open_files h ++ [(d, name)]; current := current h |},
     Some d);
  QTextCursor_new d := (d, 0%Z);
  block_position _ _ n := (20 * n)%Z;
  setPosition _ c p := (fst c, p);
  pointandclick_positions _ c := [c];
  currentDocument := current;
  mainwindow_setTextCursor h c :=
    {| open_files := open_files h; current := Some (fst c) |};
  mainwindow_setCurrentDocument h d :=
    {| open_files := open_files h; current := Some d |}
|}.

(** [file.ly] and [other.ly] are open, [other.ly] is the current one. *)
Definition two_documents : App :=
  {| open_files := [(0%nat, "file.ly"); (1%nat, "other.ly")];
     current := Some 1%nat |}.

Definition view0 : View (Host := App) (QTextCharFormat := unit) :=
  {| _highlightFormat := tt; app := two_documents |}.

(** A character map showing A-Z with the defaults of [__init__]. *)
Definition charmapAZ : CharMap (QFont := Font) :=
  run_all [SetRange 65 90] init.

(** The same after 'B' was selected. *)
Definition charmapB : CharMap (QFont := Font) :=
  run_all [SetRange 65 90; Select (PyInt 66)] init.

(** A-Z in eight columns. *)
Definition charmap8 : CharMap (QFont := Font) :=
  run_all [SetRange 65 90; SetColumnCount 8] init.

(** A character map whose font is "Sans" at 20 points. *)
Definition charmapSans20 : CharMap (QFont := Font) :=
  run_all [SetDisplayFontSize 20] init.

Definition tall : Font := {| font_family := "Tall"; font_size := 20 |}.

(** [view0] with [file.ly] as the current document. *)
Definition view_on_file : View (Host := App) (QTextCharFormat := unit) :=
  {| _highlightFormat := tt;
     app := {| open_files := open_files two_documents;
               current := Some 0%nat |} |}.

Definition scenario_url : string := "textedit://file.ly:10:4".

End Sample.

(** ** [widgets/charmap.py]: layout and tool tips *)

Module CharMapLayout.
Import Py Method Method.Notations CharMapWidget.
Open Scope method_scope.

(** [divmod(a, b)] on integers *)
Definition divmod (a b : Z) : result (Z * Z) :=
  if b =? 0 then Raise ZeroDivisionError else Ok (a / b, a mod b).

(** [QRect(left, top, width, height)] *)
Record QRect : Type := {
  rect_left : Z;
  rect_top : Z;
  rect_width : Z;
  rect_height : Z
}.

(** [QSize(width, height)] *)
Record QSize : Type := { size_width : Z; size_height : Z }.

(** [unicodedata.name(c)]; [None] stands for its [ValueError]. *)
Class Unicodedata : Type := { unicodedata_name : unicode -> option string }.

(** What the event handlers do besides emitting the signals. *)
Inductive widget_call : Type :=
| signal (e : event)
| showText (position : QPoint) (text : string) (rect : option QRect)
| accept.

(** A [QHelpEvent], the event of type [QEvent.ToolTip]. *)
Record QHelpEvent : Type := { help_pos : QPoint; help_globalPos : QPoint }.

(** The log of [m] with every entry mapped by [f]. *)
Definition map_events {S E E' A : Type} (f : E -> E') (m : M S E A)
  : M S E' A :=
  fun s =>
    let o := m s in
    Outcome (out_result o) (out_state o) (map f (out_events o)).

Section Layout.
Context {QFont : Type} `{QFontOps QFont} `{Unicodedata}.
Context {E : Type}.

Definition set_showToolTips (b : bool) (self : CharMap (QFont := QFont))
  : CharMap (QFont := QFont) :=
  {| _showToolTips := b; _selected := _selected self;
     _column_count := _column_count self; _square := _square self;
     _range := _range self; _font := _font self |}.

(** [charcodeRect]: [None] for a code outside the range *)
Definition charcodeRect (charcode : Z) : M (CharMap (QFont := QFont)) E (option QRect) :=
  self <- get;;
  if in_range self charcode then
    rc <- lift (divmod (charcode - fst (_range self)) (_column_count self));;
    let (row, col) := (rc : Z * Z) in
    let s := _square self in
    ret (Some {| rect_left := col * s; rect_top := row * s;
                 rect_width := s; rect_height := s |})
  else ret None.

(** [sizeForColumnCount]; [QSize(count, rows) * self._square] scales both
    sides by the integer. *)
Definition sizeForColumnCount (count : Z) : M (CharMap (QFont := QFont)) E QSize :=
  self <- get;;
  let (first, last) := _range self in
  q <- lift (floordiv (last - first) count);;
  let rows := q + 1 in
  ret {| size_width := count * _square self;
         size_height := rows * _square self |}.

(** [sizeHint] *)
Definition sizeHint : M (CharMap (QFont := QFont)) E QSize :=
  self <- get;;
  sizeForColumnCount (_column_count self).

(** [columnCountForWidth] *)
Definition columnCountForWidth (width : Z) : M (CharMap (QFont := QFont)) E Z :=
  self <- get;;
  lift (floordiv width (_square self)).

(** [setShowToolTips] *)
Definition setShowToolTips (enabled : bool) : M (CharMap (QFont := QFont)) E unit :=
  modify (set_showToolTips enabled).

(** [showToolTips] *)
Definition showToolTips : M (CharMap (QFont := QFont)) E bool :=
  self <- get;;
  ret (_showToolTips self).

End Layout.

Section Events.
Context {QFont : Type} `{QFontOps QFont} `{Unicodedata}.

(** [toolTipEvent]: the [try] covers [unichr] and [unicodedata.name],
    and catches [ValueError] only; [charcodeRect] is an argument of
    [QToolTip.showText]. *)
Definition toolTipEvent (position : QPoint) (charcode : Z)
  : M (CharMap (QFont := QFont)) widget_call unit :=
  self <- get;;
  when (_showToolTips self)
    (match unichr charcode with
     | Raise ValueError => ret tt
     | Raise e => lift (Raise e)
     | Ok c =>
         match unicodedata_name c with
         | None => ret tt
         | Some text =>
             rect <- charcodeRect charcode;;
             emit (showText position text rect)
         end
     end).

(** [event], for an event of type [QEvent.ToolTip] (every other event
    goes to [QWidget.event]). *)
Definition event_ToolTip (ev : QHelpEvent) : M (CharMap (QFont := QFont)) widget_call bool :=
  c <- map_events signal (charcodeAt (help_pos ev));;
  toolTipEvent (help_globalPos ev) c;;
  emit accept;;
  ret true.

End Events.
End CharMapLayout.

(** ** [widgets/charmap.py]: painting *)

Module CharMapPaint.
Import Py Method Method.Notations CharMapWidget CharMapLayout.
Open Scope method_scope.

(** [rect.right()] and [rect.bottom()] of a [QRect] *)
Definition rect_right (r : QRect) : Z := rect_left r + rect_width r - 1.
Definition rect_bottom (r : QRect) : Z := rect_top r + rect_height r - 1.

(** [QFontMetrics(font).width(text)] and [.ascent()] *)
Class QFontMetricsOps (QFont : Type) : Type := {
  metrics_width : QFont -> unicode -> Z;
  metrics_ascent : QFont -> Z
}.

(** The pens of [paintEvent]: the window colour of the palette, its
    highlight colour with an alpha value, and its text brush. *)
Inductive pen : Type :=
| WindowColor
| HighlightColor (alpha : Z)
| TextBrush.

(** Calls on the [QPainter]. *)
Inductive paint_call {QFont : Type} : Type :=
| setPen (p : pen)
| setFont (font : QFont)
| drawRect (x y w h : Z)
| fillRect (x y w h : Z) (color : pen)
| setClipRect (x y w h : Z)
| drawText (x y : Z) (text : unicode).
Arguments paint_call : clear implicits.

(** [n] integers from [a] on. *)
Fixpoint count_from (a : Z) (n : nat) : list Z :=
  match n with
  | O => []
  | S n' => a :: count_from (a + 1) n'
  end.

(** [range(a, b)] *)
Definition range (a b : Z) : list Z := count_from a (Z.to_nat (b - a)).

(** [for a in l: body], where the body says whether it has hit [break];
    the loop says whether it was left by [break]. *)
Fixpoint for_ {S E A : Type} (l : list A) (body : A -> M S E bool)
  : M S E bool :=
  match l with
  | [] => ret false
  | a :: l' => broke <- body a;; if broke then ret true else for_ l' body
  end.

Section Paint.
Context {QFont : Type} `{QFontOps QFont} `{QFontMetricsOps QFont}.

Definition painter (A : Type) : Type :=
  M (CharMap (QFont := QFont)) (paint_call QFont) A.

(** the loop "draw squares" *)
Definition draw_squares (rows cols : list Z) (s : Z) : painter bool :=
  for_ rows (fun row =>
    for_ cols (fun col =>
      emit (drawRect (col * s) (row * s) (s - 1) (s - 1));;
      ret false)).

(** the part "draw selection box?" *)
Definition draw_selection (s : Z) : painter unit :=
  self <- get;;
  when (in_range self (_selected self))
    (rc <- lift (divmod (_selected self - fst (_range self))
                        (_column_count self));;
     let (row, col) := (rc : Z * Z) in
     emit (fillRect (col * s) (row * s) (s - 1) (s - 1) (HighlightColor 96));;
     emit (setPen (HighlightColor 255));;
     emit (drawRect (col * s) (row * s) (s - 1) (s - 1))).

(** the loop "draw the characters": the inner [break] leaves both loops *)
Definition draw_characters (rows cols : list Z) (s : Z) : painter bool :=
  for_ rows (fun row =>
    for_ cols (fun col =>
      self <- get;;
      let char := row * _column_count self + col + fst (_range self) in
      if snd (_range self) <? char then ret true
      else
        t <- lift (unichr char);;
        emit (setClipRect (col * s) (row * s) s s);;
        let x := col * s + s / 2 - metrics_width (_font self) t / 2 in
        let y := row * s + 4 + metrics_ascent (_font self) in
        emit (drawText x y t);;
        ret false)).

(** [paintEvent], for the rectangle [ev.rect()]; [/] is the floor
    division of Python 2 integers. *)
Definition paintEvent (rect : QRect) : painter unit :=
  self <- get;;
  let s := _square self in
  top <- lift (floordiv (rect_top rect) s);;
  bottom <- lift (floordiv (rect_bottom rect) s);;
  let rows := range top (bottom + 1) in
  left <- lift (floordiv (rect_left rect) s);;
  right <- lift (floordiv (rect_right rect) s);;
  let cols := range left (right + 1) in
  emit (setPen WindowColor);;
  emit (setFont (_font self));;
  draw_squares rows cols s;;
  draw_selection s;;
  emit (setPen TextBrush);;
  draw_characters rows cols s;;
  ret tt.

(** What is to be seen of the grid in the rows and columns [rows] and
    [cols]: the squares, the box of the selection, and the codes up to
    the last one, each in its cell. *)
Definition squares (rows cols : list Z) (s : Z) : list (paint_call QFont) :=
  flat_map (fun row =>
    map (fun col => drawRect (col * s) (row * s) (s - 1) (s - 1)) cols) rows.

Definition selection_box (self : CharMap (QFont := QFont))
  : list (paint_call QFont) :=
  if in_range self (_selected self) then
    let row := (_selected self - fst (_range self)) / _column_count self in
    let col := (_selected self - fst (_range self)) mod _column_count self in
    let s := _square self in
    [fillRect (col * s) (row * s) (s - 1) (s - 1) (HighlightColor 96);
     setPen (HighlightColor 255);
     drawRect (col * s) (row * s) (s - 1) (s - 1)]
  else [].

Definition character_cell (self : CharMap (QFont := QFont)) (row col : Z)
  : list (paint_call QFont) :=
  let char := row * _column_count self + col + fst (_range self) in
  let s := _square self in
  if char <=? snd (_range self) then
    [setClipRect (col * s) (row * s) s s;
     drawText (col * s + s / 2 - metrics_width (_font self) [char] / 2)
              (row * s + 4 + metrics_ascent (_font self)) [char]]
  else [].

Definition characters (self : CharMap (QFont := QFont)) (rows cols : list Z)
  : list (paint_call QFont) :=
  flat_map (fun row => flat_map (character_cell self row) cols) rows.

End Paint.
End CharMapPaint.

(** ** [svgview/view.py]: zooming *)

Module SvgZoom.
Import Py Method Method.Notations.
Open Scope method_scope.

(** A Python [float] is an IEEE 754 binary64 number; its arithmetic is
    that of [SpecFloat] with 53 bits of precision, rounding to nearest
    even. *)
Definition float : Type := spec_float.

Definition prec : Z := 53.
Definition emax : Z := 1024.

(** [x * y] *)
Definition fmul (x y : float) : float := SFmul prec emax x y.

(** [x / y]: [ZeroDivisionError] for a zero divisor *)
Definition truediv (x y : float) : result float :=
  match y with
  | S754_zero _ => Raise ZeroDivisionError
  | _ => Ok (SFdiv prec emax x y)
  end.

(** [x != y] *)
Definition fne (x y : float) : bool := negb (SFeqb x y).

(** the literals [1.1] (0x1.199999999999ap+0) and [1.0] *)
Definition mantissa_1_1 : positive := 4953959590107546.
Definition f_1_1 : float := S754_finite false mantissa_1_1 (-52).
Definition f_1_0 : float := S754_finite false 4503599627370496 (-52).

(** What [View] inherits from [QWebView]: [zoomFactor()] and the
    [setZoomFactor] that [View.setZoomFactor] calls through [super]. *)
Class QWebViewOps (QWebView : Type) : Type := {
  zoomFactor : QWebView -> float;
  QWebView_setZoomFactor : QWebView -> float -> QWebView
}.

Inductive zoom_signal : Type :=
| zoomFactorChanged (factor : float).

Section Zoom.
Context {QWebView : Type} `{QWebViewOps QWebView}.

(** [setZoomFactor] *)
Definition setZoomFactor (value : float) : M QWebView zoom_signal unit :=
  self <- get;;
  let changed := fne (zoomFactor self) value in
  modify (fun self => QWebView_setZoomFactor self value);;
  when changed
    (self <- get;;
     emit (zoomFactorChanged (zoomFactor self))).

(** [zoomIn] *)
Definition zoomIn : M QWebView zoom_signal unit :=
  self <- get;;
  setZoomFactor (fmul (zoomFactor self) f_1_1).

(** [zoomOut] *)
Definition zoomOut : M QWebView zoom_signal unit :=
  self <- get;;
  value <- lift (truediv (zoomFactor self) f_1_1);;
  setZoomFactor value.

(** [zoomOriginal] *)
Definition zoomOriginal : M QWebView zoom_signal unit :=
  setZoomFactor f_1_0.

End Zoom.

(** [z] is within one unit in the last place of [x]: for positive
    finite numbers, [|z - x| <= 2^e] where [e] is the exponent of [x];
    both sides are scaled to the smaller of the two exponents. *)
Definition within_ulp (x z : float) : bool :=
  match x, z with
  | S754_finite false m e, S754_finite false mz ez =>
      let b := Z.min e ez in
      Z.abs (Zpos mz * 2 ^ (ez - b) - Zpos m * 2 ^ (e - b)) <=? 2 ^ (e - b)
  | _, _ => false
  end.

(** In the rounding of [SpecFloat], a record [(m, r, s)] of a mantissa
    with its round and sticky bits stands for the fraction [N / D]:
    [m] is its integer part, and the bits say where the rest lies with
    respect to one half. *)
Definition represents (rec : shr_record) (N D : Z) : Prop :=
  let t := N - shr_m rec * D in
  0 <= shr_m rec /\ 0 < D /\ 0 <= t < D /\
  match shr_r rec, shr_s rec with
  | false, false => t = 0
  | false, true => 0 < t /\ 2 * t < D
  | true, false => 2 * t = D
  | true, true => D < 2 * t
  end.

(** The value of the powers of two in the goal and the hypotheses. *)
Ltac eval_pow2 :=
  repeat match goal with
         | |- context [2 ^ ?k] =>
             let v := eval vm_compute in (2 ^ k) in change (2 ^ k) with v
         | H : context [2 ^ ?k] |- _ =>
             let v := eval vm_compute in (2 ^ k) in change (2 ^ k) with v in H
         end.

(** A [QWebView] that keeps the zoom factor it is given. *)
#[export] Instance Stored_factor : QWebViewOps float := {|
  zoomFactor w := w;
  QWebView_setZoomFactor _ value := value
|}.

(** The largest finite [float]. *)
Definition DBL_MAX : float := S754_finite false 9007199254740991 971.

End SvgZoom.

(** ** [svgview/view.py]: the JavaScript bridge *)

Module JSLinkBridge.
Import Py Method Method.Notations CharMapLayout SvgView.
Open Scope method_scope.

(** Calls made by a slot of [JSLink]: those of the view, and
    [helpers.openUrl(QUrl(url))]. *)
Inductive jscall {Document QTextCursor QTextCharFormat : Type} : Type :=
| view_call (c : call Document QTextCursor QTextCharFormat)
| helpers_openUrl (url : string).
Arguments jscall : clear implicits.

Section JSLink.
Context {Host Document QTextCursor QTextCharFormat : Type}
        `{HostApp Host Document QTextCursor QTextCharFormat}.

(** [JSLink.click] *)
Definition click (url : string)
  : M View (jscall Document QTextCursor QTextCharFormat) unit :=
  recognized <- map_events view_call (doTextEdit url true);;
  when (negb recognized) (emit (helpers_openUrl url)).

End JSLink.
End JSLinkBridge.

(** ** More concrete collaborators *)

Module Sample2.
Import Py Method CharMapWidget CharMapLayout CharMapPaint SvgView Sample.

(** The names of 'A', 'B' and 'I'; no other code has a name here. *)
#[export] Instance Names : Unicodedata := {|
  unicodedata_name c :=
    match c with
    | [65] => Some "LATIN CAPITAL LETTER A"%string
    | [66] => Some "LATIN CAPITAL LETTER B"%string
    | [73] => Some "LATIN CAPITAL LETTER I"%string
    | _ => None
    end
|}.

(** A view with no open document, and an application that cannot open
    one. *)
Definition view_empty : View (Host := App) (QTextCharFormat := unit) :=
  {| _highlightFormat := tt;
     app := {| open_files := []; current := None |} |}.

(** Tool tip events over the cell of 'I' in [charmap8] and far off
    the grid. *)
Definition over_I : QHelpEvent :=
  {| help_pos := {| x := 5; y := 30 |};
     help_globalPos := {| x := 105; y := 130 |} |}.

Definition off_grid : QHelpEvent :=
  {| help_pos := {| x := 500; y := 500 |};
     help_globalPos := {| x := 600; y := 600 |} |}.

(** Text as wide as half the point size per character; the ascent is
    the point size. *)
#[export] Instance Font_metrics : QFontMetricsOps Font := {|
  metrics_width f t := (font_size f * Z.of_nat (List.length t) / 2)%Z;
  metrics_ascent f := font_size f
|}.

(** The whole of [charmap8], 192 by 96, and its first row. *)
Definition whole_grid : QRect :=
  {| rect_left := 0; rect_top := 0; rect_width := 192; rect_height := 96 |}.

Definition first_row : QRect :=
  {| rect_left := 0; rect_top := 0; rect_width := 192; rect_height := 24 |}.

(** The codes 65 to 70 in two columns, and a rectangle eight columns
    wide over the first two rows. *)
Definition charmapAF : CharMap (QFont := Font) :=
  run_all [SetRange 65 70; SetColumnCount 2] init.

Definition wide_rect : QRect :=
  {| rect_left := 0; rect_top := 0; rect_width := 192; rect_height := 48 |}.

End Sample2.

(** * Facts about method computations *)

Module MethodFacts.
Import Py Method.

Section Facts.
Context {S E A B : Type}.
Implicit Types (m : M S E A) (k : A -> M S E B) (s : S).

(** The attributes after [m] followed by [k]: those after [k] when
    [m] returns, those after [m] when it raises. *)
Lemma bind_state m k s :
  out_state (bind m k s) =
  match out_result (m s) with
  | Ok a => out_state (k a (out_state (m s)))
  | Raise _ => out_state (m s)
  end.
Proof.
  unfold bind. cbn zeta. now destruct (out_result (m s)).
Qed.

Lemma bind_events m k s :
  out_events (bind m k s) =
  match out_result (m s) with
  | Ok a => out_events (m s) ++ out_events (k a (out_state (m s)))
  | Raise _ => out_events (m s)
  end.
Proof.
  unfold bind. cbn zeta. now destruct (out_result (m s)).
Qed.

Lemma bind_result m k s :
  out_result (bind m k s) =
  match out_result (m s) with
  | Ok a => out_result (k a (out_state (m s)))
  | Raise e => Raise e
  end.
Proof.
  unfold bind. cbn zeta. now destruct (out_result (m s)).
Qed.

(** A computation that returns without touching the attributes or
    emitting anything is transparent to what follows it. *)
Lemma bind_pure m k s (a : A) :
  m s = Outcome (Ok a) s [] -> bind m k s = k a s.
Proof.
  intros Hm. unfold bind. cbn zeta. rewrite Hm.
  cbn [out_result out_state out_events app]. now destruct (k a s).
Qed.

Lemma bind_ret (a : A) k s : bind (ret a) k s = k a s.
Proof. now apply bind_pure. Qed.

End Facts.

Lemma bind_get {S E B : Type} (k : S -> M S E B) (s : S) :
  bind get k s = k s s.
Proof. now apply bind_pure. Qed.

End MethodFacts.

(** * Properties of the character map *)

Module CharMapProperties.
Import Py Method Method.Notations MethodFacts CharMapWidget.
Open Scope method_scope.

Section Properties.
Context {QFont : Type} `{QFontOps QFont}.

Implicit Type self : CharMap (QFont := QFont).

Lemma in_range_iff self (c : Z) :
  in_range self c = true <->
  fst (_range self) <= c <= snd (_range self).
Proof.
  unfold in_range. rewrite andb_true_iff, !Z.leb_le. tauto.
Qed.

Lemma normalized_out self (c : Z) :
  ~ fst (_range self) <= c <= snd (_range self) -> normalized self c = -1.
Proof.
  intros Hout. unfold normalized.
  destruct (in_range self c) eqn:E; [|reflexivity].
  apply in_range_iff in E. contradiction.
Qed.

Lemma normalized_in self (c : Z) :
  fst (_range self) <= c <= snd (_range self) -> normalized self c = c.
Proof.
  intros Hin. unfold normalized.
  apply in_range_iff in Hin. now rewrite Hin.
Qed.

(** [select] on an [int], case by case. *)
Lemma select_int self (c : Z) :
  select (PyInt c) self =
  let c' := normalized self c in
  if _selected self =? c' then Outcome (Ok tt) self []
  else match unichr c' with
       | Ok u => Outcome (Ok tt) (set_selected c' self)
                         [characterSelected u; update]
       | Raise e => Outcome (Raise e) (set_selected c' self) []
       end.
Proof.
  unfold select, normalized, bind, get, ret, when, modify, lift, emit.
  cbn.
  destruct (in_range self c); cbn;
    match goal with |- context [ ?a =? ?b ] => destruct (a =? b) end;
    cbn; try reflexivity;
    match goal with |- context [ unichr ?v ] => destruct (unichr v) end;
    reflexivity.
Qed.

(** A one-character string is selected like its code point. *)
Lemma select_char self (c : Z) :
  select (PyUnicode [c]) self = select (PyInt c) self.
Proof. reflexivity. Qed.

(** A string of another length: [ord] raises, nothing happens. *)
Lemma select_not_a_char self (s : unicode) :
  List.length s <> 1%nat ->
  select (PyUnicode s) self = Outcome (Raise TypeError) self [].
Proof.
  intros Hlen. destruct s as [|c [|d s]]; cbn in *; try reflexivity.
  congruence.
Qed.

(** After [select] on an [int] the selection is the normalized code,
    whether the call returned or raised; the range is untouched. *)
Lemma select_int_selected self (c : Z) :
  _selected (out_state (select (PyInt c) self)) = normalized self c.
Proof.
  rewrite select_int. cbn zeta.
  destruct (_selected self =? normalized self c) eqn:E.
  - now apply Z.eqb_eq in E.
  - destruct (unichr (normalized self c)); reflexivity.
Qed.

Lemma select_range self (charcode : object) :
  _range (out_state (select charcode self)) = _range self.
Proof.
  destruct charcode as [c | s].
  - rewrite select_int. cbn zeta.
    destruct (_selected self =? normalized self c); [reflexivity|].
    destruct (unichr (normalized self c)); reflexivity.
  - destruct s as [|c [|d s]]; try reflexivity.
    rewrite select_char, select_int. cbn zeta.
    destruct (_selected self =? normalized self c); [reflexivity|].
    destruct (unichr (normalized self c)); reflexivity.
Qed.

(** The signal is emitted only by a call that changes the selection. *)
Lemma select_int_emits_on_change self (c : Z) (u : unicode) :
  In (characterSelected u) (out_events (select (PyInt c) self)) ->
  _selected (out_state (select (PyInt c) self)) <> _selected self.
Proof.
  rewrite select_int. cbn zeta.
  destruct (_selected self =? normalized self c) eqn:E.
  - cbn. tauto.
  - apply Z.eqb_neq in E.
    destruct (unichr (normalized self c)); cbn; intros _; congruence.
Qed.

Lemma select_emits_on_change self (charcode : object) (u : unicode) :
  In (characterSelected u) (out_events (select charcode self)) ->
  _selected (out_state (select charcode self)) <> _selected self.
Proof.
  destruct charcode as [c | s].
  - apply select_int_emits_on_change.
  - destruct s as [|c [|d s]]; try (cbn; tauto).
    rewrite select_char. apply select_int_emits_on_change.
Qed.

(** What a call of [select] emits. *)
Lemma select_int_events self (c : Z) :
  out_events (select (PyInt c) self) = [] \/
  out_events (select (PyInt c) self)
  = [characterSelected [_selected (out_state (select (PyInt c) self))]; update]
  /\ _selected (out_state (select (PyInt c) self)) <> _selected self.
Proof.
  rewrite select_int. cbn zeta.
  destruct (_selected self =? normalized self c) eqn:E; [now left|].
  apply Z.eqb_neq in E. unfold unichr.
  destruct ((0 <=? normalized self c) && (normalized self c <=? maxunicode)).
  - right. split; [reflexivity | cbn; congruence].
  - left.
    now destruct ((INT_MIN <=? normalized self c)
                  && (normalized self c <=? INT_MAX)).
Qed.

Lemma select_events self (charcode : object) :
  out_events (select charcode self) = [] \/
  out_events (select charcode self)
  = [characterSelected [_selected (out_state (select charcode self))]; update]
  /\ _selected (out_state (select charcode self)) <> _selected self.
Proof.
  destruct charcode as [c | s]; [apply select_int_events|].
  destruct s as [|c [|d s]]; [now left | apply select_int_events | now left].
Qed.

(** C1.  Selecting a code outside the range, given as a number or as
    a single character, leaves the sentinel -1 as the selection.  And
    for every argument, in the range or not: [characterSelected] is in
    the log of the call only if the stored selection differs from the
    one before the call, it carries the character now selected, and it
    is emitted at most once. *)
Theorem select_out_of_range self (charcode : object) :
  (forall c,
      charcode = PyInt c \/ charcode = PyUnicode [c] ->
      ~ fst (_range self) <= c <= snd (_range self) ->
      _selected (out_state (select charcode self)) = -1) /\
  (forall u,
      In (characterSelected u) (out_events (select charcode self)) ->
      _selected (out_state (select charcode self)) <> _selected self /\
      u = [_selected (out_state (select charcode self))]) /\
  (selected_emissions (out_events (select charcode self)) <= 1)%nat.
Proof.
  split; [|split].
  - intros c Hcode Hout.
    assert (E : select charcode self = select (PyInt c) self)
      by (destruct Hcode; subst; reflexivity).
    rewrite E, select_int_selected. now apply normalized_out.
  - intros u Hin.
    destruct (select_events self charcode) as [Hnone | [Hlog Hchanged]].
    + rewrite Hnone in Hin. contradiction.
    + split; [exact Hchanged|].
      rewrite Hlog in Hin. destruct Hin as [Hu | [Hu | []]];
        [congruence | discriminate].
  - destruct (select_events self charcode) as [Hnone | [Hlog _]].
    + rewrite Hnone. cbn. lia.
    + rewrite Hlog. cbn. lia.
Qed.

(** C4.  [select] is not total: a code outside the range, while some
    character is selected, stores -1 and then raises [ValueError]
    from [unichr(-1)]. *)
Theorem select_raises_when_deselecting self (c : Z) :
  ~ fst (_range self) <= c <= snd (_range self) ->
  _selected self <> -1 ->
  select (PyInt c) self =
  Outcome (Raise ValueError) (set_selected (-1) self) [].
Proof.
  intros Hout Hsel. rewrite select_int, (normalized_out _ _ Hout).
  cbn zeta. apply Z.eqb_neq in Hsel. rewrite Hsel. reflexivity.
Qed.

(** [character], the sibling of [select], tests for -1 before it
    calls [unichr]. *)
Lemma character_none self :
  _selected self = -1 -> character self = Outcome (Ok None) self [].
Proof.
  intros E. unfold character, bind, get, ret. cbn. rewrite E. reflexivity.
Qed.

Lemma selected_emissions_app (l1 l2 : list event) :
  selected_emissions (l1 ++ l2)
  = (selected_emissions l1 + selected_emissions l2)%nat.
Proof.
  unfold selected_emissions. now rewrite filter_app, length_app.
Qed.

(** C6, as the code has it.  For a code [c] in the range, given as a
    number or a single character, the second of two calls of
    [select] returns, emits nothing and leaves the attributes as the
    first call left them, with [c] selected; the two calls together
    emit [characterSelected] at most once, and exactly once when [c]
    was not selected before and is a valid argument of [unichr]. *)
Theorem select_twice self (charcode : object) (c : Z) :
  charcode = PyInt c \/ charcode = PyUnicode [c] ->
  fst (_range self) <= c <= snd (_range self) ->
  select charcode (out_state (select charcode self))
  = Outcome (Ok tt) (out_state (select charcode self)) [] /\
  _selected (out_state (select charcode self)) = c /\
  (selected_emissions
     (out_events (select charcode self)
      ++ out_events (select charcode (out_state (select charcode self))))
   <= 1)%nat /\
  (_selected self <> c -> 0 <= c <= maxunicode ->
   selected_emissions
     (out_events (select charcode self)
      ++ out_events (select charcode (out_state (select charcode self))))
   = 1%nat).
Proof.
  intros Hcode Hin.
  assert (E : forall self', select charcode self' = select (PyInt c) self')
    by (intros self'; destruct Hcode; subst; reflexivity).
  rewrite !E.
  assert (Hsel : _selected (out_state (select (PyInt c) self)) = c)
    by (rewrite select_int_selected; now apply normalized_in).
  assert (Hsecond : select (PyInt c) (out_state (select (PyInt c) self))
                    = Outcome (Ok tt) (out_state (select (PyInt c) self)) []).
  { rewrite (select_int (out_state _)). cbn zeta.
    rewrite normalized_in by (rewrite select_range; exact Hin).
    rewrite Hsel, Z.eqb_refl. reflexivity. }
  rewrite Hsecond. cbn [out_events]. rewrite app_nil_r.
  repeat split; try assumption.
  - rewrite select_int. cbn zeta.
    destruct (_selected self =? normalized self c); cbn; [lia|].
    destruct (unichr (normalized self c)); cbn; lia.
  - intros Hnew Hchr. rewrite select_int. cbn zeta.
    rewrite (normalized_in _ _ Hin).
    apply Z.eqb_neq in Hnew. rewrite Hnew.
    unfold unichr.
    destruct Hchr as [H0 H1].
    apply Z.leb_le in H0, H1. rewrite H0, H1. reflexivity.
Qed.

(** C8.  After [setColumnCount(count)] the column count is
    [max(1, count)]: 1 for a count of 0 or below, and never less
    than 1. *)
Theorem setColumnCount_clamps self (count : Z) :
  out_result (setColumnCount count self) = Ok tt /\
  _column_count (out_state (setColumnCount count self)) = Z.max 1 count /\
  (count <= 0 -> _column_count (out_state (setColumnCount count self)) = 1) /\
  1 <= _column_count (out_state (setColumnCount count self)).
Proof.
  cbn. repeat split; lia.
Qed.

(** [charcodeAt] reads the attributes and emits nothing. *)
Lemma charcodeAt_eq self (position : QPoint) :
  charcodeAt position self =
  Outcome
    (if _square self =? 0 then Raise ZeroDivisionError
     else
       let row := y position / _square self in
       let col := x position / _square self in
       let charcode := fst (_range self) + row * _column_count self + col in
       Ok (if (col <=? _column_count self) && (charcode <=? snd (_range self))
           then charcode else -1))
    self [].
Proof.
  unfold charcodeAt, bind, get, lift, floordiv. cbn.
  destruct (_square self =? 0); cbn; [reflexivity|].
  destruct (x position / _square self <=? _column_count self); cbn;
    [|reflexivity].
  match goal with |- context [ ?a <=? ?b ] => destruct (a <=? b) end;
    reflexivity.
Qed.

(** The column test of [charcodeAt] admits the column one past the
    last one. *)
Lemma charcodeAt_past_last_column self (position : QPoint) :
  0 < _square self ->
  _column_count self * _square self <= x position
    < (_column_count self + 1) * _square self ->
  fst (_range self) + y position / _square self * _column_count self
    + _column_count self <= snd (_range self) ->
  charcodeAt position self =
  Outcome
    (Ok (fst (_range self) + y position / _square self * _column_count self
         + _column_count self))
    self [].
Proof.
  intros Hsq Hx Hlast.
  assert (Hcol : x position / _square self = _column_count self).
  { symmetry.
    apply Z.div_unique
      with (r := x position - _column_count self * _square self); lia. }
  rewrite charcodeAt_eq. cbn zeta. rewrite Hcol.
  replace (_square self =? 0) with false by (symmetry; apply Z.eqb_neq; lia).
  rewrite Z.leb_refl. apply Z.leb_le in Hlast. rewrite Hlast. reflexivity.
Qed.

(** C5, as the code has it.  At a position with non-negative
    coordinates [charcodeAt] returns the computed code
    [first + row*column_count + col], which then lies in the range,
    when [col <= column_count] and the code is at most [last], and the
    sentinel -1 in every other case; so, unless -1 is itself a code of
    the range, it returns -1 exactly for the positions of the other
    case.  In particular, for a position whose x lies in
    [[column_count*square, (column_count+1)*square)] and whose computed
    code [first + row*column_count + column_count] is at most [last],
    it returns that code, not the sentinel. *)
Theorem charcodeAt_sentinel self (position : QPoint) :
  0 < _square self ->
  (0 <= _column_count self -> 0 <= x position -> 0 <= y position ->
   (x position / _square self <= _column_count self /\
    fst (_range self) + y position / _square self * _column_count self
      + x position / _square self <= snd (_range self) ->
    charcodeAt position self =
    Outcome
      (Ok (fst (_range self) + y position / _square self * _column_count self
           + x position / _square self))
      self [] /\
    fst (_range self)
    <= fst (_range self) + y position / _square self * _column_count self
       + x position / _square self
    <= snd (_range self)) /\
   (~ (x position / _square self <= _column_count self /\
       fst (_range self) + y position / _square self * _column_count self
         + x position / _square self <= snd (_range self)) ->
    charcodeAt position self = Outcome (Ok (-1)) self []) /\
   (~ fst (_range self) <= -1 <= snd (_range self) ->
    (charcodeAt position self = Outcome (Ok (-1)) self [] <->
     ~ (x position / _square self <= _column_count self /\
        fst (_range self) + y position / _square self * _column_count self
          + x position / _square self <= snd (_range self))))) /\
  (_column_count self * _square self <= x position
     < (_column_count self + 1) * _square self ->
   fst (_range self) + y position / _square self * _column_count self
     + _column_count self <= snd (_range self) ->
   charcodeAt position self =
   Outcome
     (Ok (fst (_range self) + y position / _square self * _column_count self
          + _column_count self))
     self []).
Proof.
  intros Hsq. split; [|now apply charcodeAt_past_last_column].
  intros Hcc Hx Hy.
  assert (Hcol0 : 0 <= x position / _square self) by (apply Z.div_pos; lia).
  assert (Hrow0 : 0 <= y position / _square self) by (apply Z.div_pos; lia).
  set (col := x position / _square self) in *.
  set (row := y position / _square self) in *.
  assert (Hat : charcodeAt position self =
                Outcome
                  (Ok (if (col <=? _column_count self)
                          && (fst (_range self) + row * _column_count self + col
                              <=? snd (_range self))
                       then fst (_range self) + row * _column_count self + col
                       else -1))
                  self []).
  { rewrite charcodeAt_eq. cbn zeta.
    now replace (_square self =? 0) with false
      by (symmetry; apply Z.eqb_neq; lia). }
  assert (Hyes : col <= _column_count self /\
                 fst (_range self) + row * _column_count self + col
                 <= snd (_range self) ->
                 charcodeAt position self =
                 Outcome (Ok (fst (_range self) + row * _column_count self + col))
                         self []).
  { intros [H1 H2]. rewrite Hat.
    apply Z.leb_le in H1, H2. now rewrite H1, H2. }
  assert (Hno : ~ (col <= _column_count self /\
                   fst (_range self) + row * _column_count self + col
                   <= snd (_range self)) ->
                charcodeAt position self = Outcome (Ok (-1)) self []).
  { intros Hn. rewrite Hat.
    destruct (col <=? _column_count self) eqn:H1; [|reflexivity].
    destruct (fst (_range self) + row * _column_count self + col
              <=? snd (_range self)) eqn:H2; [|reflexivity].
    apply Z.leb_le in H1, H2. tauto. }
  split; [|split].
  - intros Hcond. split; [now apply Hyes | nia].
  - exact Hno.
  - intros Hsentinel. split; [|exact Hno].
    intros Hres [H1 H2].
    rewrite (Hyes (conj H1 H2)) in Hres.
    injection Hres as Hres. apply Hsentinel. nia.
Qed.

(** That code is the one of the first cell of the next row. *)
Remark next_row_first_cell (first row column_count : Z) :
  first + row * column_count + column_count
  = first + (row + 1) * column_count + 0.
Proof. ring. Qed.

(** A mouse press leaves the attributes alone or selects a code. *)
Lemma mousePressEvent_state self (ev : QMouseEvent) :
  out_state (mousePressEvent ev self) = self \/
  exists c, out_state (mousePressEvent ev self)
            = out_state (select (PyInt c) self).
Proof.
  unfold mousePressEvent. rewrite bind_state, charcodeAt_eq.
  cbn [out_result out_state].
  destruct (_square self =? 0); [left; reflexivity|].
  cbn zeta.
  match goal with |- context [ negb (?a =? -1) ] => set (code := a) end.
  destruct (code =? -1); cbn [negb when]; [left; reflexivity|].
  right. exists code. rewrite bind_state.
  destruct (out_result (select (PyInt code) self)); [|reflexivity].
  destruct (MouseButton_eqb (button ev) RightButton);
    cbn [negb when]; [reflexivity|].
  rewrite bind_state. cbn [lift out_result out_state].
  destruct (unichr code); reflexivity.
Qed.

Lemma select_valid self (charcode : object) :
  selection_valid self ->
  selection_valid (out_state (select charcode self)).
Proof.
  intros Hvalid.
  assert (Hint : forall c, selection_valid (out_state (select (PyInt c) self))).
  { intros c. unfold selection_valid.
    rewrite select_int_selected, select_range. unfold normalized.
    destruct (in_range self c) eqn:E.
    - intros _. now apply in_range_iff.
    - intros Hneq. now contradiction Hneq. }
  destruct charcode as [c | s]; [apply Hint|].
  destruct s as [|c [|d s]]; [exact Hvalid | apply Hint | exact Hvalid].
Qed.

Lemma init_valid : selection_valid (init (QFont := QFont)).
Proof. intros Hneq. now contradiction Hneq. Qed.

Lemma run_valid self (op : operation) :
  selection_valid self -> selection_valid (out_state (run op self)).
Proof.
  intros Hvalid.
  destruct op as [first last | charcode | count | font | size | ev];
    cbn [run].
  - intros Hneq. now contradiction Hneq.
  - now apply select_valid.
  - exact Hvalid.
  - exact Hvalid.
  - exact Hvalid.
  - destruct (mousePressEvent_state self ev) as [E | [c E]]; rewrite E.
    + exact Hvalid.
    + now apply select_valid.
Qed.

(** C2.  Each public operation ([setRange], [select],
    [setColumnCount], [setDisplayFont], [setDisplayFontSize],
    [mousePressEvent]) takes a widget whose selection is -1 or in the
    range to such a widget again, whether it returns or raises; and
    [setRange] leaves -1 as the selection. *)
Theorem selection_valid_preserved self (op : operation) :
  selection_valid self ->
  selection_valid (out_state (run op self)) /\
  (forall first last,
      _selected (out_state (setRange first last self)) = -1).
Proof.
  intros Hvalid. split; [now apply run_valid | reflexivity].
Qed.

(** Hence the selection of every widget that the operations build
    from a new one is -1 or in the range. *)
Corollary reachable_valid (ops : list operation) :
  selection_valid (run_all ops (init (QFont := QFont))).
Proof.
  unfold run_all.
  generalize (init (QFont := QFont)) (init_valid).
  induction ops as [|op ops IH]; intros self Hvalid; cbn [fold_left].
  - exact Hvalid.
  - apply IH. now apply run_valid.
Qed.

(** C3, as the code has it.  [setDisplayFontSize] sets the cell size
    to [max(24, 3 * x-height)] of the font it has just resized;
    [setDisplayFont] replaces the family of the font and leaves the
    cell size as it was. *)
Theorem square_follows_font_size self (size : Z) (font : QFont) :
  _square (out_state (setDisplayFontSize size self))
  = Z.max 24 (3 * xHeight (_font (out_state (setDisplayFontSize size self))))
  /\ _font (out_state (setDisplayFontSize size self))
     = setPointSize (_font self) size
  /\ _square (out_state (setDisplayFont font self)) = _square self
  /\ _font (out_state (setDisplayFont font self))
     = setFamily (_font self) (family font).
Proof.
  cbn. now rewrite Z.mul_comm.
Qed.

(** C9.  With the range (65, 90), 32 columns, cells of 24 and no
    selection, a press of a button other than the right one at
    (24, 0) selects 66 and emits [characterSelected] and
    [characterClicked], both with the character 66, 'B'. *)
Theorem click_selects_B (tips : bool) (font : QFont) (b : MouseButton) :
  b <> RightButton ->
  let self := {| _showToolTips := tips; _selected := -1;
                 _column_count := 32; _square := 24;
                 _range := (65, 90); _font := font |} in
  mousePressEvent {| pos := {| x := 24; y := 0 |}; button := b |} self
  = Outcome (Ok tt) (set_selected 66 self)
            [characterSelected [66]; update; characterClicked [66]].
Proof.
  intros Hb. destruct b; try reflexivity. now contradiction Hb.
Qed.

End Properties.
End CharMapProperties.

(** * Properties of the SVG view *)

Module SvgViewProperties.
Import Py Method Method.Notations MethodFacts SvgView.
Open Scope method_scope.

Section Properties.
Context {Host Document QTextCursor QTextCharFormat : Type}
        `{HostApp Host Document QTextCursor QTextCharFormat}.

Implicit Type self : View (Host := Host) (QTextCharFormat := QTextCharFormat).

(** Without [load], [document] only searches [app.documents]. *)
Lemma document_no_load self (name : string) :
  document name false self =
  Outcome (Ok (find (matches (app self) name) (app_documents (app self))))
          self [].
Proof.
  unfold document, bind, get. cbn.
  now destruct (find (matches (app self) name) (app_documents (app self))).
Qed.

(** [document] highlights nothing. *)
Lemma document_no_highlight self (name : string) (load : bool)
      format cursors priority msec :
  ~ In (highlight format cursors priority msec)
       (out_events (document name load self)).
Proof.
  unfold document, bind, get. cbn.
  destruct (find (matches (app self) name) (app_documents (app self)));
    [cbn; tauto|].
  destruct load; [|cbn; tauto].
  destruct (app_openUrl (app self) name) as [h doc]. cbn.
  intros [Habs | []]. discriminate Habs.
Qed.

Lemma is_current_true (h : Host) (doc : Document) :
  is_current h doc = true -> currentDocument h = Some doc.
Proof.
  unfold is_current. destruct (currentDocument h) as [d|]; [|discriminate].
  destruct (Document_eq_dec doc d); [now subst | discriminate].
Qed.

Lemma is_current_false (h : Host) (doc : Document) :
  currentDocument h <> Some doc -> is_current h doc = false.
Proof.
  intros Hneq. destruct (is_current h doc) eqn:E; [|reflexivity].
  now apply is_current_true in E.
Qed.

(** C10.  For a url that [textedit.link] accepts, [doTextEdit] with
    [setCursor] false, when the document it resolves to is not the
    current one (or there is none), returns True and makes no call
    on the editor at all: no highlight, no cursor set, the
    application as it was.  And whatever [setCursor] is, a highlight
    call is made only when the resolved document is the current
    document. *)
Theorem doTextEdit_inactive_document self (url : string) (t : Link) :
  textedit_link url = Some t ->
  (forall doc,
      out_result (document (filename t) false self) = Ok (Some doc) ->
      currentDocument (app self) <> Some doc) ->
  doTextEdit url false self = Outcome (Ok true) self [] /\
  (forall setCursor format cursors priority msec,
      In (highlight format cursors priority msec)
         (out_events (doTextEdit url setCursor self)) ->
      exists doc,
        out_result (document (filename t) setCursor self) = Ok (Some doc) /\
        currentDocument (app (out_state (document (filename t) setCursor self)))
        = Some doc).
Proof.
  intros Hlink Hinactive. split.
  - unfold doTextEdit. rewrite Hlink.
    rewrite (bind_pure _ _ _ _ (document_no_load self (filename t))).
    rewrite document_no_load in Hinactive. cbn [out_result] in Hinactive.
    destruct (find (matches (app self) (filename t)) (app_documents (app self)))
      as [doc|]; [|reflexivity].
    rewrite bind_get.
    rewrite (is_current_false _ _ (Hinactive doc eq_refl)), andb_false_r.
    cbn [when]. now rewrite !bind_ret.
  - intros setCursor format cursors priority msec.
    unfold doTextEdit. rewrite Hlink, bind_events.
    pose proof (document_no_highlight self (filename t) setCursor
                  format cursors priority msec) as Hdoc.
    destruct (out_result (document (filename t) setCursor self))
      as [[doc|] | e]; [| |tauto].
    2: { cbn. rewrite app_nil_r. tauto. }
    rewrite in_app_iff. intros [Hin | Hin]; [tauto|].
    exists doc. split; [reflexivity|].
    set (self' := out_state (document (filename t) setCursor self)) in *.
    apply is_current_true.
    destruct (is_current (app self') doc) eqn:Ecur; [reflexivity|].
    exfalso. revert Hin.
    rewrite bind_get, Ecur, andb_false_r. cbn [when]. rewrite bind_ret.
    destruct setCursor; cbn [when].
    + rewrite bind_events. cbn. intuition discriminate.
    + rewrite bind_ret. cbn. tauto.
Qed.

End Properties.
End SvgViewProperties.

(** * The widgets on concrete inputs *)

Module Scenarios.
Import Py Method CharMapWidget SvgView Sample.
Import CharMapProperties SvgViewProperties.

(** ** Character map *)

Example charmapB_attributes :
  _selected charmapB = 66 /\ _range charmapB = (65, 90)
  /\ _column_count charmapB = 32 /\ _square charmapB = 24.
Proof. repeat split. Qed.

(** Selecting 200 while 'B' is selected ends with nothing selected. *)
Lemma select_out_of_range_witness :
  _selected (out_state (select (PyInt 200) charmapB)) = -1.
Proof.
  apply (proj1 (select_out_of_range charmapB (PyInt 200)) 200).
  - left; reflexivity.
  - cbn; lia.
Defined.

Lemma selection_valid_preserved_witness :
  selection_valid (out_state (run (Select (PyInt 200)) charmapB)).
Proof.
  apply (selection_valid_preserved charmapB (Select (PyInt 200))).
  intros _. cbn. lia.
Defined.

(** C3 fails for [setDisplayFont]: with "Sans" at 20 points the cells
    are 30 wide; after the family "Tall" is set they still are, while
    three times the x-height of the font is now 60. *)
Lemma setDisplayFont_keeps_square :
  _square (out_state (setDisplayFont tall charmapSans20))
  <> Z.max 24 (3 * xHeight (_font (out_state (setDisplayFont tall charmapSans20)))).
Proof. vm_compute. discriminate. Qed.

Example sans20_then_tall_values :
  _square charmapSans20 = 30
  /\ _square (out_state (setDisplayFont tall charmapSans20)) = 30
  /\ xHeight (_font (out_state (setDisplayFont tall charmapSans20))) = 20.
Proof. repeat split. Qed.

(** Selecting 200 while 'B' is selected raises. *)
Lemma select_raises_when_deselecting_witness :
  select (PyInt 200) charmapB
  = Outcome (Raise ValueError) (set_selected (-1) charmapB) [].
Proof.
  apply (select_raises_when_deselecting charmapB 200).
  - cbn; lia.
  - cbn; lia.
Defined.

(** In eight columns of 24, x = 192 is one column past the grid. *)
Lemma charcodeAt_sentinel_witness :
  charcodeAt {| x := 192; y := 0 |} charmap8 = Outcome (Ok 73) charmap8 [].
Proof.
  apply (charcodeAt_sentinel charmap8 {| x := 192; y := 0 |}).
  - cbn; lia.
  - cbn; lia.
  - cbn; lia.
Defined.

(** C5 fails left of the widget: the position (-1, 0) is in column -1,
    on no cell of the grid, and the code computed for it, 64, is not in
    the range (65, 90); [charcodeAt] has no test against [first] and
    returns 64, not the sentinel. *)
Lemma charcodeAt_left_of_grid :
  charcodeAt {| x := -1; y := 0 |} charmapAZ = Outcome (Ok 64) charmapAZ [] /\
  ~ fst (_range charmapAZ) <= 64 <= snd (_range charmapAZ) /\
  out_result (charcodeAt {| x := -1; y := 0 |} charmapAZ) <> Ok (-1).
Proof.
  split; [reflexivity|]. split; [cbn; lia | discriminate].
Qed.

(** A press there selects 73, 'I', the first cell of the second row. *)
Example click_right_of_grid :
  mousePressEvent {| pos := {| x := 192; y := 0 |}; button := LeftButton |}
                  charmap8
  = Outcome (Ok tt) (set_selected 73 charmap8)
            [characterSelected [73]; update; characterClicked [73]].
Proof. reflexivity. Qed.

(** C6 fails when the code is selected already: 66 is in the range
    of [charmapB], and two calls of [select(66)] emit nothing. *)
Lemma select_twice_already_selected :
  fst (_range charmapB) <= 66 <= snd (_range charmapB) /\
  selected_emissions
    (out_events (select (PyInt 66) charmapB)
     ++ out_events (select (PyInt 66) (out_state (select (PyInt 66) charmapB))))
  <> 1%nat.
Proof.
  split; [cbn; lia|]. vm_compute. discriminate.
Qed.

Lemma select_twice_witness :
  selected_emissions
    (out_events (select (PyInt 66) charmapAZ)
     ++ out_events (select (PyInt 66) (out_state (select (PyInt 66) charmapAZ))))
  = 1%nat.
Proof.
  apply (select_twice charmapAZ (PyInt 66) 66).
  - left; reflexivity.
  - cbn; lia.
  - cbn; lia.
  - unfold maxunicode; lia.
Defined.

Lemma setColumnCount_clamps_witness :
  _column_count (out_state (setColumnCount (-3) charmapAZ)) = 1.
Proof.
  apply (setColumnCount_clamps charmapAZ (-3)). lia.
Defined.

Lemma click_selects_B_witness :
  mousePressEvent {| pos := {| x := 24; y := 0 |}; button := LeftButton |}
                  charmapAZ
  = Outcome (Ok tt) charmapB
            [characterSelected [66]; update; characterClicked [66]].
Proof.
  apply (click_selects_B true QFont_new LeftButton). discriminate.
Defined.

(** ** SVG view *)

(** Hovering over the link while [other.ly] is the current document. *)
Lemma doTextEdit_inactive_document_witness :
  doTextEdit scenario_url false view0 = Outcome (Ok true) view0 [].
Proof.
  apply (doTextEdit_inactive_document view0 scenario_url
           {| filename := "file.ly"; line := 10; column := 4 |}).
  - reflexivity.
  - intros doc Hdoc. vm_compute in Hdoc. vm_compute.
    intros Hcur. congruence.
Defined.

(** Hovering while [file.ly] is the current document highlights. *)
Example hover_active_document :
  hover scenario_url view_on_file
  = Outcome (Ok true) view_on_file [highlight tt [(0%nat, 184)] 2 0].
Proof. reflexivity. Qed.

(** A click ([setCursor] true) while [other.ly] is current. *)
Example click_inactive_document :
  out_events (doTextEdit scenario_url true view0)
  = [setTextCursor (0%nat, 184); blink_cursor; setCurrentDocument 0%nat;
     activateWindow; setFocus].
Proof. reflexivity. Qed.

End Scenarios.

(** * More facts about method computations *)

Module MethodSequencing.
Import Py Method.

(** A computation that returns leaves its log before that of the next. *)
Lemma bind_ok {S E A B : Type} (m : M S E A) (k : A -> M S E B)
      (s s' : S) (a : A) (l : list E) :
  m s = Outcome (Ok a) s' l ->
  bind m k s =
  Outcome (out_result (k a s')) (out_state (k a s')) (l ++ out_events (k a s')).
Proof.
  intros Hm. unfold bind. cbn zeta. now rewrite Hm.
Qed.

Lemma bind_unit_r {S E : Type} (m : M S E unit) (s : S) :
  bind m (fun _ => ret tt) s = m s.
Proof.
  unfold bind, ret. cbn zeta.
  destruct (m s) as [[[]|e] s' l]; cbn; [now rewrite app_nil_r | reflexivity].
Qed.

End MethodSequencing.

(** * Properties of the layout of the character map *)

Module CharMapLayoutProperties.
Import Py Method Method.Notations MethodFacts MethodSequencing.
Import CharMapWidget CharMapLayout CharMapProperties.
Open Scope method_scope.

Section Properties.
Context {QFont : Type} `{QFontOps QFont} `{Unicodedata}.

Implicit Type self : CharMap (QFont := QFont).

(** The cell an offset falls into. *)
Lemma div_cell (s v k : Z) :
  0 < s -> k * s <= v < k * s + s -> v / s = k.
Proof.
  intros Hs Hv. symmetry. apply Z.div_unique with (r := v - k * s); lia.
Qed.

Lemma charcodeRect_eq {E : Type} self (c : Z) :
  charcodeRect (E := E) c self =
  Outcome
    (if in_range self c then
       if _column_count self =? 0 then Raise ZeroDivisionError
       else Ok (Some {| rect_left :=
                          (c - fst (_range self)) mod _column_count self
                          * _square self;
                        rect_top :=
                          (c - fst (_range self)) / _column_count self
                          * _square self;
                        rect_width := _square self;
                        rect_height := _square self |})
     else Ok None)
    self [].
Proof.
  unfold charcodeRect. rewrite bind_get.
  destruct (in_range self c); [|reflexivity].
  unfold divmod, bind, lift, ret.
  destruct (_column_count self =? 0); reflexivity.
Qed.

(** X1.  Every point of the rectangle that [charcodeRect] gives for a
    code is mapped back to that code by [charcodeAt]. *)
Theorem charcodeAt_in_charcodeRect self (c : Z) (r : QRect) (position : QPoint) :
  0 < _square self ->
  0 < _column_count self ->
  charcodeRect (E := event) c self = Outcome (Ok (Some r)) self [] ->
  rect_left r <= x position < rect_left r + rect_width r ->
  rect_top r <= y position < rect_top r + rect_height r ->
  charcodeAt position self = Outcome (Ok c) self [].
Proof.
  intros Hsq Hcc Hrect Hx Hy.
  rewrite charcodeRect_eq in Hrect.
  destruct (in_range self c) eqn:Hin; [|discriminate Hrect].
  apply in_range_iff in Hin.
  replace (_column_count self =? 0) with false in Hrect
    by (symmetry; apply Z.eqb_neq; lia).
  injection Hrect as Hr. subst r. cbn [rect_left rect_top rect_width rect_height] in *.
  pose proof (Z.mod_pos_bound (c - fst (_range self)) _ Hcc) as Hmod.
  pose proof (Z.div_mod (c - fst (_range self)) (_column_count self)
                ltac:(lia)) as Hdm.
  rewrite charcodeAt_eq. cbn zeta.
  rewrite (div_cell _ _ _ Hsq Hx), (div_cell _ _ _ Hsq Hy).
  replace (_square self =? 0) with false by (symmetry; apply Z.eqb_neq; lia).
  set (q := (c - fst (_range self)) / _column_count self) in *.
  set (m := (c - fst (_range self)) mod _column_count self) in *.
  replace (fst (_range self) + q * _column_count self + m) with c by lia.
  replace (m <=? _column_count self) with true by (symmetry; apply Z.leb_le; lia).
  replace (c <=? snd (_range self)) with true by (symmetry; apply Z.leb_le; lia).
  reflexivity.
Qed.

(** X2.  Conversely, when [charcodeAt] finds a code at a point with
    non-negative coordinates inside the columns of the grid, the
    rectangle of that code contains the point. *)
Theorem charcodeRect_contains_position self (position : QPoint) (c : Z) :
  0 < _square self ->
  0 <= x position ->
  0 <= y position ->
  x position / _square self < _column_count self ->
  charcodeAt position self = Outcome (Ok c) self [] ->
  c <> -1 ->
  exists r,
    charcodeRect (E := event) c self = Outcome (Ok (Some r)) self [] /\
    rect_left r <= x position < rect_left r + rect_width r /\
    rect_top r <= y position < rect_top r + rect_height r.
Proof.
  intros Hsq Hx Hy Hcol Hat Hc.
  pose proof (Z.mul_div_le (x position) (_square self) Hsq) as Hx1.
  pose proof (Z.mul_succ_div_gt (x position) (_square self) Hsq) as Hx2.
  pose proof (Z.mul_div_le (y position) (_square self) Hsq) as Hy1.
  pose proof (Z.mul_succ_div_gt (y position) (_square self) Hsq) as Hy2.
  rewrite charcodeAt_eq in Hat. cbn zeta in Hat.
  replace (_square self =? 0) with false in Hat
    by (symmetry; apply Z.eqb_neq; lia).
  set (col := x position / _square self) in *.
  set (row := y position / _square self) in *.
  assert (Hcol0 : 0 <= col) by (apply Z.div_pos; lia).
  assert (Hrow0 : 0 <= row) by (apply Z.div_pos; lia).
  destruct ((col <=? _column_count self)
            && (fst (_range self) + row * _column_count self + col
                <=? snd (_range self))) eqn:Htest;
    [|injection Hat as Hat; congruence].
  injection Hat as Hat.
  apply andb_true_iff in Htest. destruct Htest as [_ Hlast].
  apply Z.leb_le in Hlast.
  assert (Hin : in_range self c = true)
    by (apply in_range_iff; nia).
  assert (Hdiv : (c - fst (_range self)) / _column_count self = row).
  { symmetry. apply Z.div_unique with (r := col); lia. }
  assert (Hmod : (c - fst (_range self)) mod _column_count self = col).
  { symmetry. apply Z.mod_unique with (q := row); lia. }
  eexists. rewrite charcodeRect_eq, Hin.
  replace (_column_count self =? 0) with false
    by (symmetry; apply Z.eqb_neq; lia).
  split; [reflexivity|].
  cbn [rect_left rect_top rect_width rect_height].
  rewrite Hdiv, Hmod. lia.
Qed.

Lemma charcodeAt_nonnegative self (position : QPoint) :
  0 < _square self ->
  0 <= _column_count self ->
  0 <= x position ->
  0 <= y position ->
  exists c,
    charcodeAt position self = Outcome (Ok c) self [] /\
    (c = -1 \/ fst (_range self) <= c <= snd (_range self)).
Proof.
  intros Hsq Hcc Hx Hy.
  rewrite charcodeAt_eq. cbn zeta.
  replace (_square self =? 0) with false by (symmetry; apply Z.eqb_neq; lia).
  set (col := x position / _square self).
  set (row := y position / _square self).
  assert (Hcol0 : 0 <= col) by (apply Z.div_pos; lia).
  assert (Hrow0 : 0 <= row) by (apply Z.div_pos; lia).
  eexists. split; [reflexivity|].
  destruct ((col <=? _column_count self)
            && (fst (_range self) + row * _column_count self + col
                <=? snd (_range self))) eqn:Htest; [right | now left].
  apply andb_true_iff in Htest. destruct Htest as [_ Hlast].
  apply Z.leb_le in Hlast. nia.
Qed.

(** X3.  At a point with non-negative coordinates [charcodeAt] returns
    the sentinel -1 or a code of the range, and it does not raise. *)
Theorem charcodeAt_nonnegative_position self (position : QPoint) :
  0 < _square self ->
  0 <= _column_count self ->
  0 <= x position ->
  0 <= y position ->
  exists c,
    charcodeAt position self = Outcome (Ok c) self [] /\
    (c = -1 \/ fst (_range self) <= c <= snd (_range self)).
Proof.
  apply charcodeAt_nonnegative.
Qed.

Lemma sizeForColumnCount_eq {E : Type} self (count : Z) :
  sizeForColumnCount (E := E) count self =
  Outcome
    (if count =? 0 then Raise ZeroDivisionError
     else Ok {| size_width := count * _square self;
                size_height :=
                  ((snd (_range self) - fst (_range self)) / count + 1)
                  * _square self |})
    self [].
Proof.
  unfold sizeForColumnCount. rewrite bind_get.
  destruct (_range self) as [first last]. cbn [fst snd].
  unfold floordiv, bind, lift, ret.
  destruct (count =? 0); reflexivity.
Qed.

Lemma sizeHint_eq {E : Type} self :
  sizeHint (E := E) self = sizeForColumnCount (_column_count self) self.
Proof. unfold sizeHint. now rewrite bind_get. Qed.

(** X4.  The size hint holds the grid: the rectangle of every code of
    the range lies inside [sizeHint()]. *)
Theorem cell_within_sizeHint self (c : Z) :
  0 < _square self ->
  0 < _column_count self ->
  fst (_range self) <= c <= snd (_range self) ->
  exists r size,
    charcodeRect (E := event) c self = Outcome (Ok (Some r)) self [] /\
    sizeHint (E := event) self = Outcome (Ok size) self [] /\
    0 <= rect_left r /\ rect_left r + rect_width r <= size_width size /\
    0 <= rect_top r /\ rect_top r + rect_height r <= size_height size.
Proof.
  intros Hsq Hcc Hin.
  pose proof (Z.mod_pos_bound (c - fst (_range self)) _ Hcc) as Hmod.
  assert (Hrow0 : 0 <= (c - fst (_range self)) / _column_count self)
    by (apply Z.div_pos; lia).
  assert (Hrow : (c - fst (_range self)) / _column_count self
                 <= (snd (_range self) - fst (_range self)) / _column_count self)
    by (apply Z.div_le_mono; lia).
  do 2 eexists.
  rewrite charcodeRect_eq, sizeHint_eq, sizeForColumnCount_eq.
  rewrite (proj2 (in_range_iff self c) Hin).
  replace (_column_count self =? 0) with false
    by (symmetry; apply Z.eqb_neq; lia).
  split; [reflexivity|]. split; [reflexivity|].
  cbn [rect_left rect_top rect_width rect_height size_width size_height].
  repeat split; nia.
Qed.

(** X5.  The size hint has no spare row: the rectangle of the last code
    of a non-empty range ends at the bottom of [sizeHint()]. *)
Theorem last_cell_at_bottom self :
  0 < _column_count self ->
  fst (_range self) <= snd (_range self) ->
  exists r size,
    charcodeRect (E := event) (snd (_range self)) self
    = Outcome (Ok (Some r)) self [] /\
    sizeHint (E := event) self = Outcome (Ok size) self [] /\
    rect_top r + rect_height r = size_height size.
Proof.
  intros Hcc Hne.
  do 2 eexists.
  rewrite charcodeRect_eq, sizeHint_eq, sizeForColumnCount_eq.
  rewrite (proj2 (in_range_iff self (snd (_range self)))) by lia.
  replace (_column_count self =? 0) with false
    by (symmetry; apply Z.eqb_neq; lia).
  split; [reflexivity|]. split; [reflexivity|].
  cbn [rect_top rect_height size_height]. ring.
Qed.

(** [select] changes nothing but the selection. *)
Lemma select_state self (charcode : object) :
  exists c, out_state (select charcode self) = set_selected c self.
Proof.
  assert (Hself : self = set_selected (_selected self) self)
    by (now destruct self).
  assert (Hint : forall c, exists c',
             out_state (select (PyInt c) self) = set_selected c' self).
  { intros c. rewrite select_int. cbn zeta.
    destruct (_selected self =? normalized self c).
    - exists (_selected self). exact Hself.
    - exists (normalized self c).
      destruct (unichr (normalized self c)); reflexivity. }
  destruct charcode as [c | s]; [apply Hint|].
  destruct s as [|c [|d s]].
  - exists (_selected self). exact Hself.
  - apply Hint.
  - exists (_selected self). exact Hself.
Qed.

Lemma run_geometry self (op : operation) :
  1 <= _column_count self /\ 24 <= _square self ->
  1 <= _column_count (out_state (run op self))
  /\ 24 <= _square (out_state (run op self)).
Proof.
  intros Hgeo.
  destruct op as [first last | charcode | count | font | size | ev];
    cbn [run].
  - exact Hgeo.
  - destruct (select_state self charcode) as [c E]. now rewrite E.
  - cbn. lia.
  - exact Hgeo.
  - cbn. lia.
  - destruct (mousePressEvent_state self ev) as [E | [c E]]; rewrite E.
    + exact Hgeo.
    + destruct (select_state self (PyInt c)) as [c' E']. now rewrite E'.
Qed.

Lemma run_all_geometry (ops : list operation) self :
  1 <= _column_count self /\ 24 <= _square self ->
  1 <= _column_count (run_all ops self) /\ 24 <= _square (run_all ops self).
Proof.
  unfold run_all. revert self.
  induction ops as [|op ops IH]; intros self Hgeo; cbn [fold_left].
  - exact Hgeo.
  - apply IH. now apply run_geometry.
Qed.

Lemma init_geometry :
  1 <= _column_count (init (QFont := QFont))
  /\ 24 <= _square (init (QFont := QFont)).
Proof. cbn. lia. Qed.

(** X6.  Whatever calls are made on a new widget, its column count
    stays at least 1 and its cell size at least 24. *)
Theorem reachable_geometry (ops : list operation) :
  1 <= _column_count (run_all ops (init (QFont := QFont)))
  /\ 24 <= _square (run_all ops (init (QFont := QFont))).
Proof.
  apply run_all_geometry, init_geometry.
Qed.

(** X7.  On a widget built by any calls from a new one none of the
    divisions fails: [charcodeAt] returns a code for every position,
    and [sizeHint] and [columnCountForWidth] return. *)
Theorem reachable_no_division_by_zero (ops : list operation)
        (position : QPoint) (width : Z) :
  let self := run_all ops (init (QFont := QFont)) in
  (exists c, charcodeAt position self = Outcome (Ok c) self []) /\
  (exists size, sizeHint (E := event) self = Outcome (Ok size) self []) /\
  (exists n, columnCountForWidth (E := event) width self
             = Outcome (Ok n) self []).
Proof.
  cbn zeta. destruct (run_all_geometry ops _ init_geometry) as [Hcc Hsq].
  set (self := run_all ops init) in *.
  repeat split.
  - eexists. rewrite charcodeAt_eq.
    replace (_square self =? 0) with false
      by (symmetry; apply Z.eqb_neq; lia).
    reflexivity.
  - eexists. rewrite sizeHint_eq, sizeForColumnCount_eq.
    replace (_column_count self =? 0) with false
      by (symmetry; apply Z.eqb_neq; lia).
    reflexivity.
  - eexists. unfold columnCountForWidth. rewrite bind_get.
    unfold lift, floordiv.
    replace (_square self =? 0) with false
      by (symmetry; apply Z.eqb_neq; lia).
    reflexivity.
Qed.

(** X8.  [columnCountForWidth] gives the number of columns that fit:
    for a width of at least one cell the count [n] is at least 1, the
    widget is at most that wide in [n] columns and wider in [n + 1]. *)
Theorem columnCountForWidth_fits self (width : Z) :
  0 < _square self ->
  _square self <= width ->
  exists n size size',
    columnCountForWidth (E := event) width self = Outcome (Ok n) self [] /\
    1 <= n /\
    sizeForColumnCount (E := event) n self = Outcome (Ok size) self [] /\
    sizeForColumnCount (E := event) (n + 1) self = Outcome (Ok size') self [] /\
    size_width size <= width < size_width size'.
Proof.
  intros Hsq Hwidth.
  assert (Hn : 1 <= width / _square self)
    by (apply Z.div_le_lower_bound; lia).
  pose proof (Z.mul_div_le width (_square self) Hsq) as Hle.
  pose proof (Z.mul_succ_div_gt width (_square self) Hsq) as Hgt.
  exists (width / _square self). do 2 eexists.
  unfold columnCountForWidth. rewrite bind_get. unfold lift, floordiv.
  rewrite !sizeForColumnCount_eq.
  replace (_square self =? 0) with false by (symmetry; apply Z.eqb_neq; lia).
  replace (width / _square self =? 0) with false
    by (symmetry; apply Z.eqb_neq; lia).
  replace (width / _square self + 1 =? 0) with false
    by (symmetry; apply Z.eqb_neq; lia).
  repeat split; try assumption; cbn [size_width]; lia.
Qed.

(** X9.  For a width below one cell [columnCountForWidth] returns 0,
    a count for which [sizeForColumnCount] raises [ZeroDivisionError]
    and which [setColumnCount] turns into 1. *)
Theorem columnCountForWidth_narrow self (width : Z) :
  0 <= width < _square self ->
  columnCountForWidth (E := event) width self = Outcome (Ok 0) self [] /\
  sizeForColumnCount (E := event) 0 self
  = Outcome (Raise ZeroDivisionError) self [] /\
  _column_count (out_state (setColumnCount 0 self)) = 1.
Proof.
  intros Hwidth. split; [|split].
  - unfold columnCountForWidth. rewrite bind_get. unfold lift, floordiv.
    replace (_square self =? 0) with false by (symmetry; apply Z.eqb_neq; lia).
    now rewrite Z.div_small.
  - now rewrite sizeForColumnCount_eq.
  - reflexivity.
Qed.

(** With tool tips switched off [toolTipEvent] does nothing. *)
Lemma toolTipEvent_off self (position : QPoint) (c : Z) :
  _showToolTips self = false ->
  toolTipEvent position c self = Outcome (Ok tt) self [].
Proof.
  intros Hoff. unfold toolTipEvent. now rewrite bind_get, Hoff.
Qed.

(** What [toolTipEvent] shows for a code that is a C [int]. *)
Lemma toolTipEvent_cases self (position : QPoint) (c : Z) :
  _column_count self <> 0 ->
  INT_MIN <= c <= INT_MAX ->
  exists tips,
    toolTipEvent position c self = Outcome (Ok tt) self tips /\
    (tips = [] \/
     exists text rect,
       tips = [showText position text rect] /\
       charcodeRect (E := event) c self = Outcome (Ok rect) self []) /\
    (~ 0 <= c <= maxunicode -> tips = []) /\
    (unicodedata_name [c] = None -> tips = []).
Proof.
  intros Hcc Hint. unfold toolTipEvent. rewrite bind_get.
  destruct (_showToolTips self) eqn:Htips; cbn [when].
  2: { exists []. repeat split; auto. }
  unfold unichr.
  destruct ((0 <=? c) && (c <=? maxunicode)) eqn:Hchr.
  2: { replace ((INT_MIN <=? c) && (c <=? INT_MAX)) with true
         by (symmetry; apply andb_true_iff; split; apply Z.leb_le; lia).
       exists []. repeat split; auto. }
  apply andb_true_iff in Hchr. destruct Hchr as [Hlo Hhi].
  apply Z.leb_le in Hlo, Hhi.
  destruct (unicodedata_name [c]) as [text|] eqn:Hname.
  2: { exists []. repeat split; auto. }
  assert (Hrect : exists rect,
             (forall E : Type,
                 charcodeRect (E := E) c self = Outcome (Ok rect) self [])).
  { apply Z.eqb_neq in Hcc.
    destruct (in_range self c) eqn:Hin; eexists; intros E;
      rewrite charcodeRect_eq, Hin, ?Hcc; reflexivity. }
  destruct Hrect as [rect Hrect]. rewrite (bind_pure _ _ _ _ (Hrect _)).
  eexists. split; [reflexivity|].
  split; [right; eauto|].
  split; intros; [lia | discriminate].
Qed.

(** X10.  The tool tip handler does not raise on a widget whose range
    consists of C [int]s: for an event at a position with non-negative
    coordinates it accepts the event and returns True, after showing at
    most one tool tip; the tool tip is shown at the global position of
    the event, and its rectangle is the one [charcodeRect] gives for
    the code found at the position, never None. *)
Theorem event_ToolTip_returns self (ev : QHelpEvent) :
  0 < _square self ->
  0 < _column_count self ->
  INT_MIN <= fst (_range self) ->
  snd (_range self) <= INT_MAX ->
  0 <= x (help_pos ev) ->
  0 <= y (help_pos ev) ->
  exists tips,
    event_ToolTip ev self = Outcome (Ok true) self (tips ++ [accept]) /\
    (tips = [] \/
     exists text c r,
       tips = [showText (help_globalPos ev) text (Some r)] /\
       charcodeAt (help_pos ev) self = Outcome (Ok c) self [] /\
       charcodeRect (E := event) c self = Outcome (Ok (Some r)) self []).
Proof.
  intros Hsq Hcc Hmin Hmax Hx Hy. unfold event_ToolTip.
  destruct (charcodeAt_nonnegative self (help_pos ev) Hsq ltac:(lia) Hx Hy)
    as (c & Hat & Hc).
  assert (Hat' : map_events signal (charcodeAt (help_pos ev)) self
                 = Outcome (Ok c) self [])
    by (unfold map_events; now rewrite Hat).
  rewrite (bind_pure _ _ _ _ Hat').
  assert (Hint : INT_MIN <= c <= INT_MAX)
    by (unfold INT_MIN, INT_MAX in *; lia).
  destruct (toolTipEvent_cases self (help_globalPos ev) c ltac:(lia) Hint)
    as (tips & Htip & Hshape & Hchr & _).
  exists tips. split.
  - rewrite (bind_ok _ _ _ _ _ _ Htip). reflexivity.
  - destruct Hshape as [Hnone | (text & rect & Htips & Hrect)];
      [now left|].
    destruct Hc as [Hc | Hc].
    + left. apply Hchr. subst c. lia.
    + right. exists text, c.
      rewrite charcodeRect_eq in Hrect.
      rewrite (proj2 (in_range_iff self c) Hc) in Hrect.
      replace (_column_count self =? 0) with false in Hrect
        by (symmetry; apply Z.eqb_neq; lia).
      injection Hrect as Hrect. subst rect.
      eexists. split; [exact Htips|]. split; [exact Hat|].
      rewrite charcodeRect_eq, (proj2 (in_range_iff self c) Hc).
      replace (_column_count self =? 0) with false
        by (symmetry; apply Z.eqb_neq; lia).
      reflexivity.
Qed.

(** X11.  No tool tip is shown, and the event is accepted all the
    same, when tool tips are switched off, when [charcodeAt] finds no
    code at the position (the [ValueError] of [unichr(-1)] is caught
    here), or when the code found is a C [int] for which [unicodedata]
    has no name. *)
Theorem event_ToolTip_silent self (ev : QHelpEvent) (c : Z) :
  _column_count self <> 0 ->
  charcodeAt (help_pos ev) self = Outcome (Ok c) self [] ->
  _showToolTips self = false \/ c = -1 \/
  (INT_MIN <= c <= INT_MAX /\ unicodedata_name [c] = None) ->
  event_ToolTip ev self = Outcome (Ok true) self [accept].
Proof.
  intros Hcc Hat Hwhy. unfold event_ToolTip.
  assert (Hat' : map_events signal (charcodeAt (help_pos ev)) self
                 = Outcome (Ok c) self [])
    by (unfold map_events; now rewrite Hat).
  rewrite (bind_pure _ _ _ _ Hat').
  assert (Htip : toolTipEvent (help_globalPos ev) c self
                 = Outcome (Ok tt) self []).
  { destruct Hwhy as [Hoff | [Hnone | [Hint Hname]]].
    - now apply toolTipEvent_off.
    - subst c.
      destruct (toolTipEvent_cases self (help_globalPos ev) (-1) Hcc
                  ltac:(unfold INT_MIN, INT_MAX; lia))
        as (tips & Htip & _ & Hchr & _).
      rewrite Htip, Hchr by lia. reflexivity.
    - destruct (toolTipEvent_cases self (help_globalPos ev) c Hcc Hint)
        as (tips & Htip & _ & _ & Hnone).
      now rewrite Htip, Hnone. }
  rewrite (bind_ok _ _ _ _ _ _ Htip). reflexivity.
Qed.

(** Beyond the C [int]s the [OverflowError] of [unichr] passes the
    [except ValueError] of [toolTipEvent]. *)
Lemma toolTipEvent_overflow self (position : QPoint) (c : Z) :
  _showToolTips self = true ->
  INT_MAX < c ->
  toolTipEvent position c self = Outcome (Raise OverflowError) self [].
Proof.
  intros Hon Hc. unfold toolTipEvent. rewrite bind_get, Hon. cbn [when].
  unfold unichr.
  replace (c <=? maxunicode) with false
    by (symmetry; apply Z.leb_gt; unfold INT_MAX, maxunicode in *; lia).
  replace (c <=? INT_MAX) with false by (symmetry; apply Z.leb_gt; lia).
  now rewrite !andb_false_r.
Qed.

(** X12.  [select] and [character] are inverse to each other: after
    [select] of a code of the range that [unichr] accepts, given as a
    number or a single character, the call has returned and
    [character()] returns the character with that code. *)
Theorem character_after_select self (charcode : object) (c : Z) :
  charcode = PyInt c \/ charcode = PyUnicode [c] ->
  fst (_range self) <= c <= snd (_range self) ->
  0 <= c <= maxunicode ->
  out_result (select charcode self) = Ok tt /\
  character (out_state (select charcode self))
  = Outcome (Ok (Some [c])) (out_state (select charcode self)) [].
Proof.
  intros Hcode Hin Hchr.
  assert (E : select charcode self = select (PyInt c) self)
    by (destruct Hcode; subst; reflexivity).
  rewrite E.
  assert (Hu : unichr c = Ok [c]).
  { unfold unichr. destruct Hchr as [Hlo Hhi].
    apply Z.leb_le in Hlo, Hhi. now rewrite Hlo, Hhi. }
  split.
  - rewrite select_int. cbn zeta. rewrite (normalized_in _ _ Hin), Hu.
    now destruct (_selected self =? c).
  - pose proof (select_int_selected self c) as Hsel.
    rewrite (normalized_in _ _ Hin) in Hsel.
    unfold character. rewrite bind_get, Hsel.
    replace (c =? -1) with false by (symmetry; apply Z.eqb_neq; lia).
    cbn [negb]. unfold bind, lift, ret. rewrite Hu. reflexivity.
Qed.

(** X13.  A call of [select] that returns and has changed the
    selection has emitted [characterSelected] once, with the character
    now selected, and then asked for a repaint. *)
Theorem select_announces_change self (charcode : object) :
  out_result (select charcode self) = Ok tt ->
  _selected (out_state (select charcode self)) <> _selected self ->
  out_events (select charcode self)
  = [characterSelected [_selected (out_state (select charcode self))]; update].
Proof.
  assert (Hint : forall c,
    out_result (select (PyInt c) self) = Ok tt ->
    _selected (out_state (select (PyInt c) self)) <> _selected self ->
    out_events (select (PyInt c) self)
    = [characterSelected [_selected (out_state (select (PyInt c) self))];
       update]).
  { intros c. rewrite select_int. cbn zeta.
    destruct (_selected self =? normalized self c);
      [cbn; congruence|].
    unfold unichr.
    destruct ((0 <=? normalized self c) && (normalized self c <=? maxunicode));
      [reflexivity|].
    destruct ((INT_MIN <=? normalized self c) && (normalized self c <=? INT_MAX));
      discriminate. }
  destruct charcode as [c | s]; [apply Hint|].
  destruct s as [|c [|d s]]; [discriminate | apply Hint | discriminate].
Qed.

(** X14.  A press at a position right of the column after the last
    one, or whose computed code is beyond the range, does nothing: the
    attributes stay and no signal is emitted. *)
Theorem mousePressEvent_off_grid self (ev : QMouseEvent) :
  _square self <> 0 ->
  _column_count self < x (pos ev) / _square self \/
  snd (_range self)
  < fst (_range self) + y (pos ev) / _square self * _column_count self
    + x (pos ev) / _square self ->
  mousePressEvent ev self = Outcome (Ok tt) self [].
Proof.
  intros Hsq Hoff. unfold mousePressEvent.
  assert (Hat : charcodeAt (pos ev) self = Outcome (Ok (-1)) self []).
  { rewrite charcodeAt_eq. cbn zeta.
    apply Z.eqb_neq in Hsq. rewrite Hsq.
    destruct Hoff as [Hcol | Hlast].
    - replace (x (pos ev) / _square self <=? _column_count self) with false
        by (symmetry; apply Z.leb_gt; lia).
      reflexivity.
    - match goal with |- context [ ?a && (?b <=? ?c) ] =>
        replace (b <=? c) with false by (symmetry; apply Z.leb_gt; lia)
      end.
      now rewrite andb_false_r. }
  now rewrite (bind_pure _ _ _ _ Hat).
Qed.

(** X15.  A press of the right button on a code is exactly a call of
    [select] for it: [characterClicked] is not emitted. *)
Theorem right_button_selects_only self (ev : QMouseEvent) (c : Z) :
  button ev = RightButton ->
  charcodeAt (pos ev) self = Outcome (Ok c) self [] ->
  c <> -1 ->
  mousePressEvent ev self = select (PyInt c) self.
Proof.
  intros Hb Hat Hc. unfold mousePressEvent.
  rewrite (bind_pure _ _ _ _ Hat), Hb.
  apply Z.eqb_neq in Hc. rewrite Hc. cbn [negb when MouseButton_eqb].
  apply bind_unit_r.
Qed.

(** X16.  [charcodeAt] has no lower bound test, and [mousePressEvent]
    emits [characterClicked] for the code it got from it: a press of
    another button than the right one where [charcodeAt] gives a code
    below the range, with nothing selected, emits [characterClicked]
    for that code although [select] has rejected it. *)
Theorem click_below_range self (ev : QMouseEvent) (c : Z) :
  charcodeAt (pos ev) self = Outcome (Ok c) self [] ->
  c <> -1 ->
  c < fst (_range self) ->
  0 <= c <= maxunicode ->
  _selected self = -1 ->
  button ev <> RightButton ->
  mousePressEvent ev self = Outcome (Ok tt) self [characterClicked [c]].
Proof.
  intros Hat Hc Hlow Hchr Hsel Hb. unfold mousePressEvent.
  rewrite (bind_pure _ _ _ _ Hat).
  apply Z.eqb_neq in Hc. rewrite Hc. cbn [negb when].
  assert (Hselect : select (PyInt c) self = Outcome (Ok tt) self []).
  { rewrite select_int. cbn zeta.
    rewrite normalized_out by lia. now rewrite Hsel. }
  rewrite (bind_pure _ _ _ _ Hselect).
  replace (MouseButton_eqb (button ev) RightButton) with false
    by (destruct (button ev); try reflexivity; now contradiction Hb).
  cbn [negb when]. unfold bind, lift, emit, unichr.
  destruct Hchr as [Hlo Hhi]. apply Z.leb_le in Hlo, Hhi.
  now rewrite Hlo, Hhi.
Qed.

End Properties.
End CharMapLayoutProperties.

(** * Properties of the link handling of the SVG view *)

Module JSLinkProperties.
Import Py Method Method.Notations MethodFacts MethodSequencing.
Import CharMapLayout SvgView JSLinkBridge SvgViewProperties.
Open Scope method_scope.

Section Properties.
Context {Host Document QTextCursor QTextCharFormat : Type}
        `{HostApp Host Document QTextCursor QTextCharFormat}.

Implicit Type self : View (Host := Host) (QTextCharFormat := QTextCharFormat).

(** X17.  [document] returns the first document of [app.documents]
    that matches the file name, and then calls nothing: with [load] set
    it does not open a file that is open already. *)
Theorem document_first_match self (name : string) (load : bool)
        (before after : list Document) (d : Document) :
  app_documents (app self) = before ++ d :: after ->
  (forall d', In d' before -> matches (app self) name d' = false) ->
  matches (app self) name d = true ->
  document name load self = Outcome (Ok (Some d)) self [].
Proof.
  intros Hdocs Hbefore Hd.
  assert (Hfind : find (matches (app self) name) (app_documents (app self))
                  = Some d).
  { rewrite Hdocs. clear Hdocs.
    induction before as [|d' before IH]; cbn [find List.app].
    - now rewrite Hd.
    - rewrite (Hbefore d') by now left.
      apply IH. intros d'' Hin. apply Hbefore. now right. }
  unfold document. rewrite bind_get, Hfind. reflexivity.
Qed.

(** [document] returns. *)
Lemma document_returns self (name : string) (load : bool) :
  exists doc self' log,
    document name load self = Outcome (Ok doc) self' log.
Proof.
  unfold document. rewrite bind_get.
  destruct (find (matches (app self) name) (app_documents (app self))).
  - do 3 eexists. reflexivity.
  - destruct load; [|do 3 eexists; reflexivity].
    unfold bind, emit, modify, ret. cbn.
    destruct (app_openUrl (app self) name) as [h doc].
    do 3 eexists. reflexivity.
Qed.

(** [doTextEdit] on a link whose document is resolved. *)
Lemma doTextEdit_resolved self self0 (url : string) (t : Link)
      (setCursor : bool) (doc : Document) log0 :
  textedit_link url = Some t ->
  document (filename t) setCursor self = Outcome (Ok (Some doc)) self0 log0 ->
  let cursor :=
    setPosition (app self0) (QTextCursor_new doc)
      (block_position (app self0) doc (line t - 1) + column t) in
  let cursors := pointandclick_positions (app self0) cursor in
  doTextEdit url setCursor self =
  Outcome (Ok true)
    (if setCursor
     then set_app (mainwindow_setCurrentDocument
                     (mainwindow_setTextCursor (app self0) cursor) doc) self0
     else self0)
    (log0
     ++ (if nonempty cursors && is_current (app self0) doc
         then [highlight (_highlightFormat self0) cursors 2 0] else [])
     ++ (if setCursor
         then [setTextCursor cursor; blink_cursor; setCurrentDocument doc;
               activateWindow; setFocus]
         else [])).
Proof.
  intros Hlink Hdoc. cbn zeta.
  unfold doTextEdit. rewrite Hlink, (bind_ok _ _ _ _ _ _ Hdoc), bind_get.
  destruct (nonempty _ && is_current (app self0) doc);
    destruct setCursor; destruct self0; reflexivity.
Qed.

(** X18.  A click on a link of a document that is open moves the text
    cursor to the start of block [line - 1] plus [column], blinks, makes
    the document the current one and focuses the window, in this order,
    after at most one highlight, and returns True. *)
Theorem doTextEdit_click_sequence self (url : string) (t : Link)
        (doc : Document) :
  textedit_link url = Some t ->
  find (matches (app self) (filename t)) (app_documents (app self)) = Some doc ->
  exists cursor highlights,
    cursor = setPosition (app self) (QTextCursor_new doc)
               (block_position (app self) doc (line t - 1) + column t) /\
    doTextEdit url true self =
    Outcome (Ok true)
      (set_app (mainwindow_setCurrentDocument
                  (mainwindow_setTextCursor (app self) cursor) doc) self)
      (highlights
       ++ [setTextCursor cursor; blink_cursor; setCurrentDocument doc;
           activateWindow; setFocus]) /\
    (highlights = [] \/
     exists cursors,
       highlights = [highlight (_highlightFormat self) cursors 2 0]).
Proof.
  intros Hlink Hfind.
  assert (Hdoc : document (filename t) true self
                 = Outcome (Ok (Some doc)) self [])
    by (unfold document; now rewrite bind_get, Hfind).
  do 2 eexists. split; [reflexivity|].
  rewrite (doTextEdit_resolved _ _ _ _ _ _ _ Hlink Hdoc). cbn zeta.
  split; [reflexivity|].
  destruct (nonempty _ && is_current (app self) doc); [right | now left].
  eexists. reflexivity.
Qed.

(** [doTextEdit] returns True on every textedit link. *)
Lemma doTextEdit_link_returns self (url : string) (t : Link)
      (setCursor : bool) :
  textedit_link url = Some t ->
  out_result (doTextEdit url setCursor self) = Ok true.
Proof.
  intros Hlink.
  destruct (document_returns self (filename t) setCursor)
    as (doc & self0 & log0 & Hdoc).
  destruct doc as [doc|].
  - now rewrite (doTextEdit_resolved _ _ _ _ _ _ _ Hlink Hdoc).
  - unfold doTextEdit. rewrite Hlink, (bind_ok _ _ _ _ _ _ Hdoc).
    reflexivity.
Qed.

(** X19.  Hovering never touches the editor beyond one highlight: it
    returns with the application as it was, having made no call at all
    or a single highlight call with the view's format. *)
Theorem hover_only_highlights self (url : string) :
  exists recognized log,
    hover url self = Outcome (Ok recognized) self log /\
    (log = [] \/
     exists cursors, log = [highlight (_highlightFormat self) cursors 2 0]).
Proof.
  unfold hover.
  destruct (textedit_link url) as [t|] eqn:Hlink.
  - pose proof (document_no_load self (filename t)) as Hdoc.
    destruct (find (matches (app self) (filename t)) (app_documents (app self)))
      as [doc|].
    + rewrite (doTextEdit_resolved _ _ _ _ _ _ _ Hlink Hdoc). cbn zeta.
      do 2 eexists. split; [reflexivity|].
      destruct (nonempty _ && is_current (app self) doc); [right | now left].
      eexists. reflexivity.
    + unfold doTextEdit. rewrite Hlink, (bind_pure _ _ _ _ Hdoc).
      do 2 eexists. split; [reflexivity | now left].
  - unfold doTextEdit. rewrite Hlink.
    do 2 eexists. split; [reflexivity | now left].
Qed.

(** X20.  A click on a url that is not a textedit link opens the url
    with [helpers.openUrl] and makes no call on the editor. *)
Theorem click_external_url self (url : string) :
  textedit_link url = None ->
  click url self = Outcome (Ok tt) self [helpers_openUrl url].
Proof.
  intros Hlink. unfold click.
  assert (Hedit : map_events view_call (doTextEdit url true) self
                  = Outcome (Ok false) self []).
  { unfold map_events, doTextEdit. now rewrite Hlink. }
  now rewrite (bind_pure _ _ _ _ Hedit).
Qed.

(** X21.  A click on a textedit link returns and never calls
    [helpers.openUrl], also when the document could not be opened. *)
Theorem click_link_not_external self (url : string) (t : Link) :
  textedit_link url = Some t ->
  out_result (click url self) = Ok tt /\
  forall u, ~ In (helpers_openUrl u) (out_events (click url self)).
Proof.
  intros Hlink. unfold click.
  pose proof (doTextEdit_link_returns self url t true Hlink) as Hres.
  destruct (doTextEdit url true self) as [res self' log] eqn:Hedit.
  cbn [out_result] in Hres. subst res.
  assert (Hmap : map_events view_call (doTextEdit url true) self
                 = Outcome (Ok true) self' (map view_call log))
    by (unfold map_events; now rewrite Hedit).
  rewrite (bind_ok _ _ _ _ _ _ Hmap). cbn [negb when ret out_result out_events].
  split; [reflexivity|].
  intros u. rewrite app_nil_r, in_map_iff.
  intros (c & Hc & _). discriminate Hc.
Qed.

End Properties.
End JSLinkProperties.

(** * Layout, tool tips and links on concrete inputs *)

Module LayoutScenarios.
Import Py Method CharMapWidget CharMapLayout SvgView JSLinkBridge.
Import Sample Sample2.
Import CharMapLayoutProperties JSLinkProperties.

(** ** Character map: A-Z in eight columns of 24 *)

(** 'I' (73) is the first cell of the second row. *)
Lemma charcodeAt_in_charcodeRect_witness :
  charcodeAt {| x := 5; y := 30 |} charmap8 = Outcome (Ok 73) charmap8 [].
Proof.
  apply (charcodeAt_in_charcodeRect charmap8 73
           {| rect_left := 0; rect_top := 24;
              rect_width := 24; rect_height := 24 |}).
  - cbn; lia.
  - cbn; lia.
  - reflexivity.
  - cbn; lia.
  - cbn; lia.
Defined.

Lemma charcodeRect_contains_position_witness :
  exists r,
    charcodeRect (E := event) 74 charmap8 = Outcome (Ok (Some r)) charmap8 [] /\
    rect_left r <= 30 < rect_left r + rect_width r /\
    rect_top r <= 30 < rect_top r + rect_height r.
Proof.
  apply (charcodeRect_contains_position charmap8 {| x := 30; y := 30 |} 74).
  - cbn; lia.
  - cbn; lia.
  - cbn; lia.
  - cbn; lia.
  - reflexivity.
  - lia.
Defined.

Lemma charcodeAt_nonnegative_position_witness :
  exists c,
    charcodeAt {| x := 500; y := 500 |} charmap8 = Outcome (Ok c) charmap8 [] /\
    (c = -1 \/ fst (_range charmap8) <= c <= snd (_range charmap8)).
Proof.
  apply (charcodeAt_nonnegative_position charmap8 {| x := 500; y := 500 |});
    cbn; lia.
Defined.

Lemma cell_within_sizeHint_witness :
  exists r size,
    charcodeRect (E := event) 90 charmap8 = Outcome (Ok (Some r)) charmap8 [] /\
    sizeHint (E := event) charmap8 = Outcome (Ok size) charmap8 [] /\
    0 <= rect_left r /\ rect_left r + rect_width r <= size_width size /\
    0 <= rect_top r /\ rect_top r + rect_height r <= size_height size.
Proof.
  apply (cell_within_sizeHint charmap8 90); cbn; lia.
Defined.

Example sizeHint_charmap8 :
  sizeHint (E := event) charmap8
  = Outcome (Ok {| size_width := 192; size_height := 96 |}) charmap8 [].
Proof. reflexivity. Qed.

Lemma last_cell_at_bottom_witness :
  exists r size,
    charcodeRect (E := event) (snd (_range charmap8)) charmap8
    = Outcome (Ok (Some r)) charmap8 [] /\
    sizeHint (E := event) charmap8 = Outcome (Ok size) charmap8 [] /\
    rect_top r + rect_height r = size_height size.
Proof.
  apply (last_cell_at_bottom charmap8); cbn; lia.
Defined.

Lemma columnCountForWidth_fits_witness :
  exists n size size',
    columnCountForWidth (E := event) 100 charmap8 = Outcome (Ok n) charmap8 [] /\
    1 <= n /\
    sizeForColumnCount (E := event) n charmap8 = Outcome (Ok size) charmap8 [] /\
    sizeForColumnCount (E := event) (n + 1) charmap8
    = Outcome (Ok size') charmap8 [] /\
    size_width size <= 100 < size_width size'.
Proof.
  apply (columnCountForWidth_fits charmap8 100); cbn; lia.
Defined.

Lemma columnCountForWidth_narrow_witness :
  columnCountForWidth (E := event) 10 charmap8 = Outcome (Ok 0) charmap8 [].
Proof.
  apply (columnCountForWidth_narrow charmap8 10). cbn; lia.
Defined.

(** ** Tool tips *)

Lemma event_ToolTip_returns_witness :
  exists tips,
    event_ToolTip over_I charmap8 = Outcome (Ok true) charmap8 (tips ++ [accept]) /\
    (tips = [] \/
     exists text c r,
       tips = [showText (help_globalPos over_I) text (Some r)] /\
       charcodeAt (help_pos over_I) charmap8 = Outcome (Ok c) charmap8 [] /\
       charcodeRect (E := event) c charmap8
       = Outcome (Ok (Some r)) charmap8 []).
Proof.
  apply (event_ToolTip_returns charmap8 over_I);
    unfold INT_MIN, INT_MAX; cbn; lia.
Defined.

Example toolTip_over_I :
  event_ToolTip over_I charmap8
  = Outcome (Ok true) charmap8
      [showText {| x := 105; y := 130 |} "LATIN CAPITAL LETTER I"
         (Some {| rect_left := 0; rect_top := 24;
                  rect_width := 24; rect_height := 24 |});
       accept].
Proof. reflexivity. Qed.

Lemma event_ToolTip_silent_witness :
  event_ToolTip off_grid charmap8 = Outcome (Ok true) charmap8 [accept].
Proof.
  apply (event_ToolTip_silent charmap8 off_grid (-1)).
  - cbn; lia.
  - reflexivity.
  - right; left; reflexivity.
Defined.

(** ** Selection and mouse *)

Lemma character_after_select_witness :
  character (out_state (select (PyInt 66) charmapAZ))
  = Outcome (Ok (Some [66])) (out_state (select (PyInt 66) charmapAZ)) [].
Proof.
  apply (character_after_select charmapAZ (PyInt 66) 66).
  - left; reflexivity.
  - cbn; lia.
  - unfold maxunicode; lia.
Defined.

Lemma select_announces_change_witness :
  out_events (select (PyInt 66) charmapAZ)
  = [characterSelected [_selected (out_state (select (PyInt 66) charmapAZ))];
     update].
Proof.
  apply (select_announces_change charmapAZ (PyInt 66)).
  - reflexivity.
  - cbn; lia.
Defined.

(** In 32 columns A-Z is one row: (24, 24) is below it. *)
Lemma mousePressEvent_off_grid_witness :
  mousePressEvent {| pos := {| x := 24; y := 24 |}; button := LeftButton |}
                  charmapAZ
  = Outcome (Ok tt) charmapAZ [].
Proof.
  apply (mousePressEvent_off_grid charmapAZ
           {| pos := {| x := 24; y := 24 |}; button := LeftButton |}).
  - cbn; lia.
  - right. cbn; lia.
Defined.

Lemma right_button_selects_only_witness :
  mousePressEvent {| pos := {| x := 24; y := 0 |}; button := RightButton |}
                  charmapAZ
  = select (PyInt 66) charmapAZ.
Proof.
  apply (right_button_selects_only charmapAZ
           {| pos := {| x := 24; y := 0 |}; button := RightButton |} 66).
  - reflexivity.
  - reflexivity.
  - lia.
Defined.

(** One pixel left of the widget: column -1, the code before 'A'. *)
Lemma click_below_range_witness :
  mousePressEvent {| pos := {| x := -1; y := 0 |}; button := LeftButton |}
                  charmapAZ
  = Outcome (Ok tt) charmapAZ [characterClicked [64]].
Proof.
  apply (click_below_range charmapAZ
           {| pos := {| x := -1; y := 0 |}; button := LeftButton |} 64).
  - reflexivity.
  - lia.
  - cbn; lia.
  - unfold maxunicode; lia.
  - reflexivity.
  - discriminate.
Defined.

(** ** Links *)

Lemma document_first_match_witness :
  document "file.ly" true view0 = Outcome (Ok (Some 0%nat)) view0 [].
Proof.
  apply (document_first_match view0 "file.ly" true [] [1%nat] 0%nat).
  - reflexivity.
  - intros d' [].
  - reflexivity.
Defined.

Lemma doTextEdit_click_sequence_witness :
  exists cursor highlights,
    cursor = setPosition (app view0) (QTextCursor_new 0%nat)
               (block_position (app view0) 0%nat (10 - 1) + 4) /\
    doTextEdit scenario_url true view0 =
    Outcome (Ok true)
      (set_app (mainwindow_setCurrentDocument
                  (mainwindow_setTextCursor (app view0) cursor) 0%nat) view0)
      (highlights
       ++ [setTextCursor cursor; blink_cursor; setCurrentDocument 0%nat;
           activateWindow; setFocus]) /\
    (highlights = [] \/
     exists cursors,
       highlights = [highlight (_highlightFormat view0) cursors 2 0]).
Proof.
  apply (doTextEdit_click_sequence view0 scenario_url
           {| filename := "file.ly"; line := 10; column := 4 |} 0%nat).
  - reflexivity.
  - reflexivity.
Defined.

Lemma click_external_url_witness :
  click "http://lilypond.org" view0
  = Outcome (Ok tt) view0 [helpers_openUrl "http://lilypond.org"].
Proof.
  apply (click_external_url view0 "http://lilypond.org"). reflexivity.
Defined.

(** With no document open the click opens [file.ly] itself. *)
Lemma click_link_not_external_witness :
  out_result (click scenario_url view_empty) = Ok tt /\
  forall u, ~ In (helpers_openUrl u) (out_events (click scenario_url view_empty)).
Proof.
  apply (click_link_not_external view_empty scenario_url
           {| filename := "file.ly"; line := 10; column := 4 |}).
  reflexivity.
Defined.

Example click_opens_document :
  out_events (click scenario_url view_empty)
  = map view_call
      [openUrl "file.ly"; setTextCursor (0%nat, 184); blink_cursor;
       setCurrentDocument 0%nat; activateWindow; setFocus].
Proof. reflexivity. Qed.

End LayoutScenarios.

(** * Properties of the painting of the character map *)

Module CharMapPaintProperties.
Import Py Method Method.Notations MethodFacts MethodSequencing.
Import CharMapWidget CharMapLayout CharMapPaint CharMapProperties.
Open Scope method_scope.

Section Loops.
Context {S E A : Type}.
Implicit Types (l : list A) (body : A -> M S E bool) (s : S).

Lemma flat_map_quiet l (f : A -> list E) :
  (forall b, In b l -> f b = []) -> flat_map f l = [].
Proof.
  induction l as [|a l IH]; intros Hf; cbn [flat_map]; [reflexivity|].
  rewrite (Hf a) by now left. apply IH. intros b Hb. apply Hf. now right.
Qed.

(** A loop whose body leaves the attributes alone, and after whose
    [break] nothing would have been logged anyway, logs what the body
    logs for every element. *)
Lemma for_break l body (brk : A -> bool) (f : A -> list E) s :
  (forall a, In a l -> body a s = Outcome (Ok (brk a)) s (f a)) ->
  (forall l1 a l2, l = l1 ++ a :: l2 -> brk a = true ->
                   forall b, In b l2 -> f b = []) ->
  for_ l body s = Outcome (Ok (existsb brk l)) s (flat_map f l).
Proof.
  induction l as [|a l IH]; intros Hbody Hquiet; cbn [for_ existsb flat_map].
  - reflexivity.
  - rewrite (bind_ok _ _ _ _ _ _ (Hbody a (or_introl eq_refl))).
    destruct (brk a) eqn:Hbrk; cbn [orb].
    + assert (Hrest : flat_map f l = []).
      { apply flat_map_quiet. intros b Hb.
        exact (Hquiet [] a l eq_refl Hbrk b Hb). }
      rewrite Hrest. reflexivity.
    + rewrite IH.
      * reflexivity.
      * intros b Hb. apply Hbody. now right.
      * intros l1 b l2 Hl. apply (Hquiet (a :: l1) b l2). now rewrite Hl.
Qed.

End Loops.

Lemma for_no_break {S E A : Type} (l : list A) (body : A -> M S E bool)
      (f : A -> list E) (s : S) :
  (forall a, In a l -> body a s = Outcome (Ok false) s (f a)) ->
  for_ l body s = Outcome (Ok false) s (flat_map f l).
Proof.
  intros Hbody.
  rewrite (for_break l body (fun _ => false) f s).
  - f_equal. f_equal. induction l as [|a l IH]; [reflexivity|].
    cbn [existsb orb]. apply IH. intros b Hb. apply Hbody. now right.
  - exact Hbody.
  - discriminate.
Qed.

Lemma flat_map_singleton {A B : Type} (g : A -> B) (l : list A) :
  flat_map (fun a => [g a]) l = map g l.
Proof.
  induction l as [|a l IH]; [reflexivity|]. cbn. now rewrite IH.
Qed.

Lemma count_from_In (a : Z) (n : nat) (b : Z) :
  In b (count_from a n) -> a <= b < a + Z.of_nat n.
Proof.
  revert a. induction n as [|n IH]; intros a; cbn [count_from In].
  - tauto.
  - intros [Hb | Hb]; [lia|]. apply IH in Hb. lia.
Qed.

(** [range] counts upwards. *)
Lemma count_from_split (a : Z) (n : nat) (l1 l2 : list Z) (b : Z) :
  count_from a n = l1 ++ b :: l2 ->
  forall c, In c l2 -> b < c.
Proof.
  revert a l1. induction n as [|n IH]; intros a l1; cbn [count_from].
  - destruct l1; discriminate.
  - destruct l1 as [|d l1]; cbn [List.app]; intros Heq c Hc.
    + injection Heq as Hb Hl2. subst b l2. apply count_from_In in Hc. lia.
    + injection Heq as _ Heq. exact (IH _ _ Heq c Hc).
Qed.

Section Paint.
Context {QFont : Type} `{QFontOps QFont} `{QFontMetricsOps QFont}.

Implicit Type self : CharMap (QFont := QFont).

Lemma draw_squares_eq self (rows cols : list Z) (s : Z) :
  draw_squares rows cols s self = Outcome (Ok false) self (squares rows cols s).
Proof.
  unfold draw_squares, squares.
  apply for_no_break. intros row _.
  rewrite <- flat_map_singleton.
  apply for_no_break. intros col _. reflexivity.
Qed.

Lemma draw_selection_eq self :
  _column_count self <> 0 ->
  draw_selection (_square self) self = Outcome (Ok tt) self (selection_box self).
Proof.
  intros Hcc. unfold draw_selection, selection_box. rewrite bind_get.
  destruct (in_range self (_selected self)); [|reflexivity].
  cbn [when]. unfold divmod. apply Z.eqb_neq in Hcc. rewrite Hcc.
  reflexivity.
Qed.

(** The code painted in a cell. *)
Lemma character_cell_nil self (row col : Z) :
  snd (_range self) < row * _column_count self + col + fst (_range self) ->
  character_cell self row col = [].
Proof.
  intros Hlast. unfold character_cell.
  now replace (_ <=? snd (_range self)) with false
    by (symmetry; apply Z.leb_gt; lia).
Qed.

Lemma draw_row_eq self (row a : Z) (n : nat) :
  0 <= _column_count self ->
  0 <= fst (_range self) ->
  snd (_range self) <= maxunicode ->
  0 <= row -> 0 <= a ->
  for_ (count_from a n) (fun col =>
      self' <- get;;
      let char := row * _column_count self' + col + fst (_range self') in
      if snd (_range self') <? char then ret true
      else
        t <- lift (unichr char);;
        emit (setClipRect (col * _square self) (row * _square self)
                          (_square self) (_square self));;
        let x := col * _square self + _square self / 2
                 - metrics_width (_font self') t / 2 in
        let y := row * _square self + 4 + metrics_ascent (_font self') in
        emit (drawText x y t);;
        ret false) self
  = Outcome
      (Ok (existsb (fun col => snd (_range self)
                               <? row * _column_count self + col
                                  + fst (_range self))
                   (count_from a n)))
      self
      (flat_map (character_cell self row) (count_from a n)).
Proof.
  intros Hcc Hfirst Hlast Hrow Ha.
  apply for_break.
  - intros col Hcol. apply count_from_In in Hcol.
    rewrite bind_get. cbn zeta.
    unfold character_cell.
    destruct (snd (_range self) <? _) eqn:Hbrk.
    + apply Z.ltb_lt in Hbrk.
      now replace (_ <=? snd (_range self)) with false
        by (symmetry; apply Z.leb_gt; lia).
    + apply Z.ltb_ge in Hbrk.
      replace (_ <=? snd (_range self)) with true
        by (symmetry; apply Z.leb_le; lia).
      unfold unichr.
      replace (0 <=? row * _column_count self + col + fst (_range self))
        with true by (symmetry; apply Z.leb_le; nia).
      replace (row * _column_count self + col + fst (_range self) <=? maxunicode)
        with true by (symmetry; apply Z.leb_le; lia).
      reflexivity.
  - intros l1 col l2 Hl Hbrk b Hb.
    apply Z.ltb_lt in Hbrk.
    pose proof (count_from_split _ _ _ _ _ Hl b Hb).
    apply character_cell_nil. lia.
Qed.

Lemma draw_characters_eq self (top left : Z) (m n : nat) :
  0 <= _column_count self ->
  Z.of_nat n <= _column_count self ->
  0 <= fst (_range self) ->
  snd (_range self) <= maxunicode ->
  0 <= top -> 0 <= left ->
  exists broke,
    draw_characters (count_from top m) (count_from left n) (_square self) self
    = Outcome (Ok broke) self
        (characters self (count_from top m) (count_from left n)).
Proof.
  intros Hcc Hn Hfirst Hlast Htop Hleft.
  eexists. unfold draw_characters, characters.
  apply for_break.
  - intros row Hrow. apply count_from_In in Hrow.
    apply draw_row_eq; lia.
  - intros l1 row l2 Hl Hbrk row' Hrow'.
    pose proof (count_from_split _ _ _ _ _ Hl row' Hrow') as Hlater.
    apply existsb_exists in Hbrk. destruct Hbrk as (col0 & Hcol0 & Hbrk).
    apply Z.ltb_lt in Hbrk. apply count_from_In in Hcol0.
    apply flat_map_quiet. intros col Hcol. apply count_from_In in Hcol.
    apply character_cell_nil. nia.
Qed.

Lemma lift_floordiv {E : Type} self (v s : Z) :
  s <> 0 ->
  lift (E := E) (floordiv v s) self = Outcome (Ok (v / s)) self [].
Proof.
  intros Hs. unfold lift, floordiv. apply Z.eqb_neq in Hs. now rewrite Hs.
Qed.

(** X22.  What [paintEvent] paints for an exposed rectangle inside the
    grid: with the window pen and the font set, a square for every
    exposed cell; the box of the selection when a code of the range is
    selected; then, with the text pen, every code up to the last one
    whose cell is exposed, clipped to its cell, row by row.  The
    [break] out of both loops loses no character, and the call
    returns. *)
Theorem paintEvent_paints_exposed_cells self (rect : QRect) :
  0 < _square self ->
  0 < _column_count self ->
  0 <= fst (_range self) ->
  snd (_range self) <= maxunicode ->
  0 <= rect_left rect ->
  0 <= rect_top rect ->
  rect_right rect < _column_count self * _square self ->
  let s := _square self in
  let rows := range (rect_top rect / s) (rect_bottom rect / s + 1) in
  let cols := range (rect_left rect / s) (rect_right rect / s + 1) in
  paintEvent rect self =
  Outcome (Ok tt) self
    ([setPen WindowColor; setFont (_font self)]
     ++ squares rows cols s
     ++ selection_box self
     ++ [setPen TextBrush]
     ++ characters self rows cols).
Proof.
  intros Hsq Hcc Hfirst Hlast Hleft Htop Hright. cbn zeta.
  assert (Hs : _square self <> 0) by lia.
  assert (Hl0 : 0 <= rect_left rect / _square self)
    by (apply Z.div_pos; lia).
  assert (Ht0 : 0 <= rect_top rect / _square self)
    by (apply Z.div_pos; lia).
  assert (Hr : rect_right rect / _square self < _column_count self)
    by (apply Z.div_lt_upper_bound; lia).
  unfold paintEvent. rewrite bind_get.
  rewrite (bind_pure _ _ _ _ (lift_floordiv self (rect_top rect) _ Hs)).
  rewrite (bind_pure _ _ _ _ (lift_floordiv self (rect_bottom rect) _ Hs)).
  rewrite (bind_pure _ _ _ _ (lift_floordiv self (rect_left rect) _ Hs)).
  rewrite (bind_pure _ _ _ _ (lift_floordiv self (rect_right rect) _ Hs)).
  unfold range.
  set (rows := count_from _ (Z.to_nat (rect_bottom rect / _ + 1 - _))).
  set (ncols := Z.to_nat (rect_right rect / _square self + 1
                          - rect_left rect / _square self)).
  set (cols := count_from _ ncols).
  destruct (draw_characters_eq self (rect_top rect / _square self)
              (rect_left rect / _square self)
              (Z.to_nat (rect_bottom rect / _square self + 1
                         - rect_top rect / _square self))
              ncols ltac:(lia) ltac:(lia) Hfirst Hlast Ht0 Hl0)
    as [broke Hchars].
  fold rows cols in Hchars.
  rewrite (bind_ok _ _ _ _ _ _ (eq_refl : emit (setPen WindowColor) self = _)).
  rewrite (bind_ok _ _ _ _ _ _ (eq_refl : emit (setFont (_font self)) self = _)).
  rewrite (bind_ok _ _ _ _ _ _ (draw_squares_eq self rows cols _)).
  rewrite (bind_ok _ _ _ _ _ _ (draw_selection_eq self ltac:(lia))).
  rewrite (bind_ok _ _ _ _ _ _ (eq_refl : emit (setPen TextBrush) self = _)).
  rewrite (bind_ok _ _ _ _ _ _ Hchars).
  cbn [ret out_result out_state out_events List.app].
  now rewrite app_nil_r.
Qed.

End Paint.

End CharMapPaintProperties.

(** * Painting on concrete inputs *)

Module PaintScenarios.
Import Py Method CharMapWidget CharMapLayout CharMapPaint.
Import Sample Sample2 CharMapPaintProperties.

Lemma paintEvent_paints_exposed_cells_witness :
  paintEvent whole_grid charmap8 =
  Outcome (Ok tt) charmap8
    ([setPen WindowColor; setFont (_font charmap8)]
     ++ squares (range 0 4) (range 0 8) 24
     ++ selection_box charmap8
     ++ [setPen TextBrush]
     ++ characters charmap8 (range 0 4) (range 0 8)).
Proof.
  apply (paintEvent_paints_exposed_cells charmap8 whole_grid).
  - cbn; lia.
  - cbn; lia.
  - cbn; lia.
  - unfold maxunicode; cbn; lia.
  - cbn; lia.
  - cbn; lia.
  - cbn; lia.
Defined.

(** The first row of [charmap8]: eight squares, then 'A' to 'H'. *)
Example paint_first_row :
  map (fun c => match c with drawText _ _ t => t | _ => [] end)
      (filter (fun c => match c with drawText _ _ _ => true | _ => false end)
              (out_events (paintEvent first_row charmap8)))
  = [[65]; [66]; [67]; [68]; [69]; [70]; [71]; [72]].
Proof. reflexivity. Qed.

(** Outside the grid the condition on the rectangle is needed: over
    eight columns of a grid of two, the first row is painted with all
    of 'A' to 'F', and the [break] at its seventh column ends the
    painting, so that the second row stays empty. *)
Example paint_wider_than_grid :
  map (fun c => match c with drawText x y _ => (x, y) | _ => (0, 0) end)
      (filter (fun c => match c with drawText _ _ _ => true | _ => false end)
              (out_events (paintEvent wide_rect charmapAF)))
  = [(9, 16); (33, 16); (57, 16); (81, 16); (105, 16); (129, 16)].
Proof. reflexivity. Qed.

End PaintScenarios.

(** * Facts about the rounding of binary64 arithmetic *)

Module FloatRoundingFacts.
Import SvgZoom.

(** The number of binary digits of a mantissa. *)
Lemma digits2_pos_bounds (p : positive) :
  2 ^ (Zpos (digits2_pos p) - 1) <= Zpos p < 2 ^ Zpos (digits2_pos p).
Proof.
  induction p as [p IH | p IH |]; cbn [digits2_pos].
  - rewrite Pos2Z.inj_succ.
    replace (Z.succ (Zpos (digits2_pos p)) - 1) with (Zpos (digits2_pos p) - 1 + 1) by lia.
    rewrite Z.pow_succ_r by lia.
    rewrite Z.pow_add_r by lia.
    change (2 ^ 1) with 2. lia.
  - rewrite Pos2Z.inj_succ.
    replace (Z.succ (Zpos (digits2_pos p)) - 1) with (Zpos (digits2_pos p) - 1 + 1) by lia.
    rewrite Z.pow_succ_r by lia.
    rewrite Z.pow_add_r by lia.
    change (2 ^ 1) with 2. lia.
  - cbn. lia.
Qed.

Lemma digits_unique (p : positive) (d : Z) :
  0 < d -> 2 ^ (d - 1) <= Zpos p < 2 ^ d -> Zpos (digits2_pos p) = d.
Proof.
  intros Hd Hp. pose proof (digits2_pos_bounds p) as Hb.
  set (k := Zpos (digits2_pos p)) in *.
  assert (Hk : 0 < k) by (subst k; lia).
  destruct (Z.lt_trichotomy k d) as [Hlt | [Heq | Hgt]]; [|assumption|].
  - assert (2 ^ k <= 2 ^ (d - 1)) by (apply Z.pow_le_mono_r; lia). lia.
  - assert (2 ^ d <= 2 ^ (k - 1)) by (apply Z.pow_le_mono_r; lia). lia.
Qed.

Lemma shr_1_represents (rec : shr_record) (N D : Z) :
  represents rec N D -> represents (shr_1 rec) N (2 * D).
Proof.
  destruct rec as [m r s]. unfold represents. cbn [shr_m shr_r shr_s].
  intros (Hm & HD & Ht & Hloc).
  destruct m as [|[p|p|]|p]; try lia;
    destruct r, s; cbn [shr_1 shr_m shr_r shr_s orb];
    repeat split; try lia.
Qed.

Lemma iter_shr_1_represents (n : positive) :
  forall (rec : shr_record) (N D : Z),
    represents rec N D ->
    represents (iter_pos shr_1 n rec) N (2 ^ Zpos n * D).
Proof.
  induction n as [n IH | n IH |]; intros rec N D Hrec; cbn [iter_pos].
  - apply shr_1_represents in Hrec. apply IH in Hrec. apply IH in Hrec.
    replace (2 ^ Zpos n~1 * D) with (2 ^ Zpos n * (2 ^ Zpos n * (2 * D)));
      [exact Hrec|].
    replace (Zpos n~1) with (Zpos n + Zpos n + 1) by lia.
    rewrite !Z.pow_add_r by lia. change (2 ^ 1) with 2. ring.
  - apply IH in Hrec. apply IH in Hrec.
    replace (2 ^ Zpos n~0 * D) with (2 ^ Zpos n * (2 ^ Zpos n * D));
      [exact Hrec|].
    replace (Zpos n~0) with (Zpos n + Zpos n) by lia.
    rewrite !Z.pow_add_r by lia. ring.
  - apply shr_1_represents in Hrec. exact Hrec.
Qed.

(** Rounding to nearest moves by at most one half. *)
Lemma round_nearest_even_represents (rec : shr_record) (N D : Z) :
  represents rec N D ->
  let mr := round_nearest_even (shr_m rec) (loc_of_shr_record rec) in
  shr_m rec <= mr <= shr_m rec + 1 /\
  - D <= 2 * (mr * D - N) <= D.
Proof.
  destruct rec as [m r s]. unfold represents. cbn [shr_m shr_r shr_s].
  intros (Hm & HD & Ht & Hloc).
  destruct r, s; cbn [loc_of_shr_record round_nearest_even];
    try destruct (Z.even m); split; nia.
Qed.

Lemma shr_fexp_normal (mx : positive) (ex : Z) (lx : location) (N D : Z) :
  let n := Zpos (digits2_pos mx) - 53 in
  0 <= n ->
  -1074 <= ex + n ->
  represents (shr_record_of_loc (Zpos mx) lx) N D ->
  exists rec1,
    shr_fexp 53 1024 (Zpos mx) ex lx = (rec1, ex + n) /\
    represents rec1 N (2 ^ n * D).
Proof.
  intros n Hn Hex Hrec.
  unfold shr_fexp, shr, fexp, emin. cbn [Zdigits2].
  replace (Z.max (Zpos (digits2_pos mx) + ex - 53) (3 - 1024 - 53) - ex)
    with n by (subst n; lia).
  destruct n as [|p|p] eqn:En; [| |lia].
  - eexists. split; [f_equal; lia|].
    change (2 ^ 0) with 1. now rewrite Z.mul_1_l.
  - eexists. split; [reflexivity|].
    now apply iter_shr_1_represents.
Qed.

Lemma binary_round_aux_normal (mx : positive) (ex : Z) (lx : location) (N D : Z) :
  let n := Zpos (digits2_pos mx) - 53 in
  0 <= n ->
  -1074 <= ex + n ->
  ex + n + 1 <= 971 ->
  represents (shr_record_of_loc (Zpos mx) lx) N D ->
  Zpos mx * D <= N < (Zpos mx + 1) * D ->
  exists (mz : positive) (k : Z),
    (k = 0 \/ k = 1) /\
    binary_round_aux 53 1024 false (Zpos mx) ex lx
    = S754_finite false mz (ex + n + k) /\
    2 ^ 52 <= Zpos mz < 2 ^ 53 /\
    - (2 ^ n * D) <= 2 * (Zpos mz * 2 ^ k * (2 ^ n * D) - N) <= 2 ^ n * D.
Proof.
  intros n Hn Hex Hmax Hrec Hmx.
  destruct (shr_fexp_normal mx ex lx N D Hn Hex Hrec) as (rec1 & Hshr & Hrec1).
  fold n in Hshr, Hrec1.
  pose proof (round_nearest_even_represents rec1 N _ Hrec1) as Hround.
  cbn zeta in Hround.
  set (mr := round_nearest_even (shr_m rec1) (loc_of_shr_record rec1)) in *.
  destruct Hround as (Hmr & Herr).
  pose proof (digits2_pos_bounds mx) as Hdig.
  replace (Zpos (digits2_pos mx) - 1) with (52 + n) in Hdig by (subst n; lia).
  replace (Zpos (digits2_pos mx)) with (53 + n) in Hdig by (subst n; lia).
  rewrite !Z.pow_add_r in Hdig by lia.
  assert (HP : 0 < 2 ^ n) by (apply Z.pow_pos_nonneg; lia).
  set (P2 := 2 ^ n) in *.
  destruct Hrec1 as (Hm1 & HD1 & Ht1 & _).
  assert (HD : 0 < D) by nia.
  assert (Hm1b : 2 ^ 52 <= shr_m rec1 < 2 ^ 53).
  { assert (shr_m rec1 * P2 <= Zpos mx) by nia.
    assert (Zpos mx < (shr_m rec1 + 1) * P2) by nia.
    split; nia. }
  unfold binary_round_aux. rewrite Hshr. fold mr.
  assert (Hmrb : 2 ^ 52 <= mr <= 2 ^ 53) by lia.
  destruct mr as [|pr|pr] eqn:Emr; try lia.
  destruct (Z.eq_dec (Zpos pr) (2 ^ 53)) as [Hcarry | Hnocarry].
  - (* the rounding has carried to 2^53 *)
    injection Hcarry as Hpr. subst pr.
    exists (4503599627370496%positive), 1. split; [now right|].
    split.
    + unfold shr_fexp, shr, fexp, emin. cbn [Zdigits2 digits2_pos Pos.succ].
      replace (Z.max (54 + (ex + n) - 53) (3 - 1024 - 53) - (ex + n)) with 1 by lia.
      cbn [iter_pos shr_1 shr_record_of_loc shr_m].
      replace (ex + n + 1 <=? 1024 - 53) with true
        by (symmetry; apply Z.leb_le; lia).
      reflexivity.
    + split; [cbn; lia|].
      change (4503599627370496 * 2 ^ 1) with 9007199254740992.
      change (2 ^ 53) with 9007199254740992 in Herr. lia.
  - exists pr, 0. split; [now left|].
    assert (Hd : Zpos (digits2_pos pr) = 53)
      by (apply digits_unique; [lia | change (53 - 1) with 52; lia]).
    split.
    + unfold shr_fexp, shr, fexp, emin. cbn [Zdigits2]. rewrite Hd.
      replace (Z.max (53 + (ex + n) - 53) (3 - 1024 - 53) - (ex + n)) with 0 by lia.
      cbn [shr_record_of_loc shr_m].
      replace (ex + n <=? 1024 - 53) with true
        by (symmetry; apply Z.leb_le; lia).
      now rewrite Z.add_0_r.
    + split; [lia|]. change (2 ^ 0) with 1. rewrite Z.mul_1_r. lia.
Qed.

Lemma exact_represents (m : positive) :
  represents (shr_record_of_loc (Zpos m) loc_Exact) (Zpos m) 1.
Proof.
  unfold represents. cbn [shr_record_of_loc shr_m shr_r shr_s]. lia.
Qed.

Lemma fmul_1_1_normal (m : positive) (e : Z) :
  2 ^ 52 <= Zpos m < 2 ^ 53 ->
  -1074 <= e <= 969 ->
  exists (my : positive) (n k : Z),
    SFmul 53 1024 (S754_finite false m e) f_1_1
    = S754_finite false my (e - 52 + n + k) /\
    (n = 52 /\ (k = 0 \/ k = 1) \/ n = 53 /\ k = 0) /\
    2 ^ 52 <= Zpos my < 2 ^ 53 /\
    - 2 ^ n <= 2 * (Zpos my * 2 ^ k * 2 ^ n - Zpos m * Zpos mantissa_1_1) <= 2 ^ n.
Proof.
  intros Hm He.
  change (2 ^ 52) with 4503599627370496 in Hm.
  change (2 ^ 53) with 9007199254740992 in Hm.
  unfold f_1_1, SFmul. cbn [xorb].
  assert (HP : 2 ^ 104 <= Zpos (m * mantissa_1_1) < 2 ^ 106).
  { rewrite Pos2Z.inj_mul. unfold mantissa_1_1.
    change (2 ^ 104) with (4503599627370496 * 4503599627370496).
    change (2 ^ 106) with (9007199254740992 * 9007199254740992). nia. }
  assert (Hd : Zpos (digits2_pos (m * mantissa_1_1)) = 105 \/
               Zpos (digits2_pos (m * mantissa_1_1)) = 106).
  { destruct (Z_lt_dec (Zpos (m * mantissa_1_1)) (2 ^ 105)).
    - left. apply digits_unique; [lia|]. change (105 - 1) with 104. lia.
    - right. apply digits_unique; [lia|]. change (106 - 1) with 105. lia. }
  destruct (binary_round_aux_normal (m * mantissa_1_1) (e + -52) loc_Exact
              (Zpos (m * mantissa_1_1)) 1) as (my & k & Hk & Hres & Hmy & Herr).
  - lia.
  - lia.
  - lia.
  - apply exact_represents.
  - lia.
  - exists my, (Zpos (digits2_pos (m * mantissa_1_1)) - 53), k.
    rewrite Hres. split; [f_equal; lia|].
    rewrite Z.mul_1_r in Herr. rewrite Pos2Z.inj_mul in Herr.
    split; [|split; [exact Hmy | exact Herr]].
    destruct Hd as [Hd | Hd]; rewrite Hd in *.
    + left. split; [reflexivity | exact Hk].
    + right. split; [reflexivity|].
      destruct Hk as [Hk | Hk]; [exact Hk|]. exfalso. subst k.
      change (106 - 53) with 53 in Herr.
      change (2 ^ 53) with 9007199254740992 in Herr.
      change (2 ^ 1) with 2 in Herr.
      change (2 ^ 52) with 4503599627370496 in Hmy.
      unfold mantissa_1_1 in Herr. nia.
Qed.

Lemma div_location (q r d : Z) (N : Z) :
  0 < d -> Z.even d = true -> 0 < q -> N = d * q + r -> 0 <= r < d ->
  represents (shr_record_of_loc q (new_location d r)) N d.
Proof.
  intros Hd Heven Hq HN Hr.
  unfold new_location. rewrite Heven. unfold new_location_even.
  unfold represents.
  destruct (r =? 0) eqn:Hr0.
  - apply Z.eqb_eq in Hr0. cbn [shr_record_of_loc shr_m shr_r shr_s].
    subst N. replace (d * q + r - q * d) with r by ring. lia.
  - apply Z.eqb_neq in Hr0.
    destruct (2 * r ?= d) eqn:Hcmp; cbn [shr_record_of_loc shr_m shr_r shr_s].
    + apply Z.compare_eq in Hcmp. subst N.
      replace (d * q + r - q * d) with r by ring. lia.
    + rewrite Z.compare_lt_iff in Hcmp. subst N.
      replace (d * q + r - q * d) with r by ring. lia.
    + rewrite Z.compare_gt_iff in Hcmp. subst N.
      replace (d * q + r - q * d) with r by ring. lia.
Qed.

Lemma fdiv_1_1_normal (my : positive) (ey : Z) :
  2 ^ 52 <= Zpos my < 2 ^ 53 ->
  -1073 <= ey <= 969 ->
  exists (mz : positive) (n k : Z),
    SFdiv 53 1024 (S754_finite false my ey) f_1_1
    = S754_finite false mz (ey - 1 + n + k) /\
    (n = 0 \/ n = 1) /\ (k = 0 \/ k = 1) /\
    2 ^ 52 <= Zpos mz < 2 ^ 53 /\
    - (2 ^ n * Zpos mantissa_1_1)
    <= 2 * (Zpos mz * 2 ^ k * (2 ^ n * Zpos mantissa_1_1) - Zpos my * 2 ^ 53)
    <= 2 ^ n * Zpos mantissa_1_1.
Proof.
  intros Hmy Hey.
  assert (Hdy : Zpos (digits2_pos my) = 53)
    by (apply digits_unique; [lia | change (53 - 1) with 52; lia]).
  change (2 ^ 52) with 4503599627370496 in Hmy.
  change (2 ^ 53) with 9007199254740992 in Hmy.
  unfold f_1_1, SFdiv, SFdiv_core_binary. cbn [xorb Zdigits2].
  rewrite Hdy. change (Zpos (digits2_pos mantissa_1_1)) with 53.
  unfold fexp, emin.
  replace (Z.min (Z.max (53 + ey - (53 + -52) - 53) (3 - 1024 - 53)) (ey - -52))
    with (ey - 1) by lia.
  replace (ey - -52 - (ey - 1)) with 53 by lia.
  rewrite Z.shiftl_mul_pow2 by lia.
  pose proof (Z_div_mod (Zpos my * 2 ^ 53) (Zpos mantissa_1_1) ltac:(lia)) as Hdiv.
  destruct (Z.div_eucl (Zpos my * 2 ^ 53) (Zpos mantissa_1_1)) as [q r].
  destruct Hdiv as [HN Hr].
  change (2 ^ 53) with 9007199254740992 in *.
  assert (Hq : 2 ^ 52 <= q < 2 ^ 54).
  { change (2 ^ 52) with 4503599627370496.
    change (2 ^ 54) with 18014398509481984. unfold mantissa_1_1 in *. nia. }
  destruct q as [|pq|pq]; try lia.
  assert (Hd : Zpos (digits2_pos pq) = 53 \/ Zpos (digits2_pos pq) = 54).
  { destruct (Z_lt_dec (Zpos pq) (2 ^ 53)).
    - left. apply digits_unique; [lia|]. change (53 - 1) with 52. lia.
    - right. apply digits_unique; [lia|]. change (54 - 1) with 53. lia. }
  destruct (binary_round_aux_normal pq (ey - 1) (new_location (Zpos mantissa_1_1) r)
              (Zpos my * 9007199254740992) (Zpos mantissa_1_1))
    as (mz & k & Hk & Hres & Hmz & Herr).
  - lia.
  - lia.
  - lia.
  - apply div_location; [lia | reflexivity | lia | exact HN | exact Hr].
  - lia.
  - exists mz, (Zpos (digits2_pos pq) - 53), k.
    rewrite Hres. split; [reflexivity|].
    split; [lia|]. split; [exact Hk|]. split; [exact Hmz | exact Herr].
Qed.

Lemma within_ulp_intro (m mz : positive) (e ez b : Z) :
  b <= e -> b <= ez ->
  Z.abs (Zpos mz * 2 ^ (ez - b) - Zpos m * 2 ^ (e - b)) <= 2 ^ (e - b) ->
  within_ulp (S754_finite false m e) (S754_finite false mz ez) = true.
Proof.
  intros Hbe Hbz Habs. unfold within_ulp. apply Z.leb_le.
  set (b0 := Z.min e ez).
  assert (Hb0 : b <= b0) by (subst b0; lia).
  assert (Hb0e : b0 <= e) by (subst b0; lia).
  assert (Hb0z : b0 <= ez) by (subst b0; lia).
  replace (ez - b) with (ez - b0 + (b0 - b)) in Habs by lia.
  replace (e - b) with (e - b0 + (b0 - b)) in Habs by lia.
  rewrite !Z.pow_add_r in Habs by lia.
  assert (HK : 0 < 2 ^ (b0 - b)) by (apply Z.pow_pos_nonneg; lia).
  set (K := 2 ^ (b0 - b)) in *.
  set (A := 2 ^ (ez - b0)) in *. set (B := 2 ^ (e - b0)) in *.
  replace (Zpos mz * (A * K) - Zpos m * (B * K))
    with ((Zpos mz * A - Zpos m * B) * K) in Habs by ring.
  rewrite Z.abs_mul, (Z.abs_eq K) in Habs by lia.
  apply Z.mul_le_mono_pos_r in Habs; assumption.
Qed.

Lemma round_trip_within_ulp (m : positive) (e : Z) :
  2 ^ 52 <= Zpos m < 2 ^ 53 ->
  -1073 <= e <= 968 ->
  exists (mz : positive) (ez : Z),
    SFdiv 53 1024 (SFmul 53 1024 (S754_finite false m e) f_1_1) f_1_1
    = S754_finite false mz ez /\
    within_ulp (S754_finite false m e) (S754_finite false mz ez) = true.
Proof.
  intros Hm He.
  destruct (fmul_1_1_normal m e Hm ltac:(lia))
    as (my & n & k & Hmul & Hnk & Hmy & E1).
  rewrite Hmul.
  destruct (fdiv_1_1_normal my (e - 52 + n + k) Hmy ltac:(lia))
    as (mz & n' & k' & Hdiv & Hn' & Hk' & Hmz & E2).
  rewrite Hdiv. do 2 eexists. split; [reflexivity|].
  apply (within_ulp_intro _ _ _ _ (e - 1)); [lia | lia |].
  replace (e - 52 + n + k - 1 + n' + k' - (e - 1))
    with (n + k + n' + k' - 52) by lia.
  replace (e - (e - 1)) with 1 by lia.
  unfold mantissa_1_1 in *.
  destruct Hnk as [[Hn Hk] | [Hn Hk]]; subst n;
    destruct Hn' as [Hn' | Hn']; subst n';
    destruct Hk' as [Hk' | Hk']; subst k';
    try (destruct Hk as [Hk | Hk]); subst k;
    eval_pow2; lia.
Qed.

End FloatRoundingFacts.

(** * Properties of zooming *)

Module SvgZoomProperties.
Import Py Method Method.Notations MethodFacts MethodSequencing.
Import SvgZoom FloatRoundingFacts.
Open Scope method_scope.

(** A number that is not a NaN compares equal to itself. *)
Lemma SFeqb_refl (x : float) : x <> S754_nan -> SFeqb x x = true.
Proof.
  intros Hx. unfold SFeqb, SFcompare.
  destruct x as [s | s | | s m e]; try reflexivity.
  - now destruct s.
  - now contradiction Hx.
  - destruct s; rewrite Z.compare_refl, Pos.compare_cont_refl; reflexivity.
Qed.

(** Numbers that [!=] tells apart differ, unless both are the NaN. *)
Lemma fne_neq (x y : float) :
  fne x y = true -> y <> S754_nan -> x <> y.
Proof.
  intros Hne Hy Heq. subst y. unfold fne in Hne.
  rewrite SFeqb_refl in Hne by assumption. discriminate.
Qed.

Section Properties.
Context {QWebView : Type} `{QWebViewOps QWebView}.

Implicit Type self : QWebView.

(** [setZoomFactor] passes the value on, then emits when the old
    factor and the value compare unequal. *)
Lemma setZoomFactor_eq self (value : float) :
  setZoomFactor value self =
  Outcome (Ok tt) (QWebView_setZoomFactor self value)
    (if fne (zoomFactor self) value
     then [zoomFactorChanged (zoomFactor (QWebView_setZoomFactor self value))]
     else []).
Proof.
  unfold setZoomFactor. rewrite bind_get.
  destruct (fne (zoomFactor self) value); reflexivity.
Qed.

Lemma zoomIn_eq self :
  zoomIn self = setZoomFactor (fmul (zoomFactor self) f_1_1) self.
Proof. unfold zoomIn. now rewrite bind_get. Qed.

Lemma zoomOut_eq self :
  zoomOut self
  = setZoomFactor (SFdiv prec emax (zoomFactor self) f_1_1) self.
Proof. unfold zoomOut. now rewrite bind_get. Qed.


End Properties.
End SvgZoomProperties.

(** * Zooming on concrete inputs *)

Module ZoomScenarios.
Import Py Method SvgZoom SvgZoomProperties.


Example zoom_from_original :
  zoomIn f_1_0 = Outcome (Ok tt) f_1_1 [zoomFactorChanged f_1_1] /\
  zoomOut f_1_1 = Outcome (Ok tt) f_1_0 [zoomFactorChanged f_1_0] /\
  zoomOriginal f_1_0 = Outcome (Ok tt) f_1_0 [].
Proof. repeat split; vm_compute; reflexivity. Qed.


End ZoomScenarios.
